(** * myradio-go: track and user accessors

    A shallow embedding of [tracks.go] and [user.go] together with the
    parts of the Go standard library they call ([strings.Replace],
    [fmt.Sscan] on [*uint64] operands, [strconv.ParseUint], [time.Parse]
    for the two layouts in use and [fmt.Sprintf] with [%d]).

    The library functions follow the Go sources from release 1.13 on
    (integer literals with base prefixes and underscores in [fmt] and
    [strconv], validation of the day of the month in [time.Parse]).
    [encoding/json] and the transport of [Session] are not modelled: the
    client is parametrised by them.

    Conventions.
    - A Go [string] is a Rocq [string]: a sequence of bytes.
    - [uint64] is a [Z] in [0, 2^64); every arithmetic operation of the
      source is followed by an explicit reduction modulo [2^64].
    - A Go function returning [(v, err)] returns a pair whose second
      component is [option error]; [None] is the [nil] error.
    - A [*json.RawMessage] is an [option]: [None] is the [nil] pointer. *)

From Stdlib Require Import ZArith String Ascii List Bool Lia.
From Stdlib Require Import DecimalString DecimalPos DecimalFacts.
Import ListNotations.
Open Scope Z_scope.

(* ================================================================== *)
(** ** Machine integers and bytes *)

Definition uint64 := Z.
Definition rune := Z.
Definition byte := Z.

Definition maxUint64 : Z := 2 ^ 64 - 1.
Definition wrap64 (z : Z) : uint64 := z mod 2 ^ 64.

Definition u64_mul (a b : uint64) : uint64 := wrap64 (a * b).
Definition u64_add (a b : uint64) : uint64 := wrap64 (a + b).

Definition byte_of (c : ascii) : byte := Z.of_N (N_of_ascii c).
Definition bytes_of (s : string) : list byte := map byte_of (list_ascii_of_string s).

(** [strings.Replace(s, old, new, -1)] for one-byte [old] and [new]:
    every occurrence of the byte is substituted. *)
Fixpoint strings_Replace_all (s : string) (old new : ascii) : string :=
  match s with
  | EmptyString => EmptyString
  | String c s' =>
      String (if Ascii.eqb c old then new else c) (strings_Replace_all s' old new)
  end.

(* ================================================================== *)
(** ** unicode/utf8: the runes a reader yields for a byte string *)

Module utf8.

Definition RuneError : rune := 0xFFFD.
Definition RuneSelf : Z := 0x80.

Definition locb : Z := 0x80.
Definition hicb : Z := 0xBF.

(** [first[p0]] for a non-ASCII lead byte: the encoded size and the range
    accepted for the second byte; [None] for an invalid lead byte. *)
Definition first (p0 : byte) : option (Z * Z * Z) :=
  if p0 <? 0xC2 then None
  else if p0 <=? 0xDF then Some (2, locb, hicb)
  else if p0 =? 0xE0 then Some (3, 0xA0, hicb)
  else if p0 <=? 0xEC then Some (3, locb, hicb)
  else if p0 =? 0xED then Some (3, locb, 0x9F)
  else if p0 <=? 0xEF then Some (3, locb, hicb)
  else if p0 =? 0xF0 then Some (4, 0x90, hicb)
  else if p0 <=? 0xF3 then Some (4, locb, hicb)
  else if p0 =? 0xF4 then Some (4, locb, 0x8F)
  else None.

Definition maskx : Z := 0x3F.
Definition mask2 : Z := 0x1F.
Definition mask3 : Z := 0x0F.
Definition mask4 : Z := 0x07.

Definition outside (lo hi b : Z) : bool := (b <? lo) || (hi <? b).

(** Repeated [DecodeRune]: an invalid or truncated encoding yields
    [RuneError] and consumes one byte. *)
Fixpoint decode (p : list byte) : list rune :=
  match p with
  | [] => []
  | p0 :: p1 =>
      if p0 <? RuneSelf then p0 :: decode p1
      else
        match first p0 with
        | None => RuneError :: decode p1
        | Some (sz, lo, hi) =>
            match p1 with
            | [] => RuneError :: decode p1
            | b1 :: p2 =>
                if outside lo hi b1 then RuneError :: decode p1
                else if sz <=? 2 then
                  Z.lor (Z.shiftl (Z.land p0 mask2) 6) (Z.land b1 maskx) :: decode p2
                else
                  match p2 with
                  | [] => RuneError :: decode p1
                  | b2 :: p3 =>
                      if outside locb hicb b2 then RuneError :: decode p1
                      else if sz <=? 3 then
                        Z.lor (Z.lor (Z.shiftl (Z.land p0 mask3) 12)
                                     (Z.shiftl (Z.land b1 maskx) 6))
                              (Z.land b2 maskx) :: decode p3
                      else
                        match p3 with
                        | [] => RuneError :: decode p1
                        | b3 :: p4 =>
                            if outside locb hicb b3 then RuneError :: decode p1
                            else
                              Z.lor (Z.lor (Z.lor (Z.shiftl (Z.land p0 mask4) 18)
                                                  (Z.shiftl (Z.land b1 maskx) 12))
                                           (Z.shiftl (Z.land b2 maskx) 6))
                                    (Z.land b3 maskx) :: decode p4
                        end
                  end
            end
        end
  end.

End utf8.

Definition runes_of (s : string) : list rune := utf8.decode (bytes_of s).

(* ================================================================== *)
(** ** strconv.ParseUint *)

Module strconv.

Inductive Err := ErrSyntax | ErrRange | ErrBase | ErrBitSize.

(** [*NumError]: the failing function, the input and the reason. *)
Record NumError := { Func : string; Num : list byte; Why : Err }.

Definition lower (c : byte) : byte := Z.lor c 0x20.

Definition ch (c : ascii) : Z := byte_of c.

(** [underscoreOK], after the optional sign and base prefix: [i] is the
    kind of the previous character. *)
Inductive prev := prevDigit | prevUnderscore | prevOther | prevStart.

Definition is_prevDigit (i : prev) : bool :=
  match i with prevDigit => true | _ => false end.
Definition is_prevUnderscore (i : prev) : bool :=
  match i with prevUnderscore => true | _ => false end.

Fixpoint underscoreOK_loop (hex : bool) (i : prev) (s : list byte) : bool :=
  match s with
  | [] => negb (is_prevUnderscore i)
  | c :: s' =>
      if ((ch "0" <=? c) && (c <=? ch "9"))
         || (hex && (ch "a" <=? lower c) && (lower c <=? ch "f"))
      then underscoreOK_loop hex prevDigit s'
      else if c =? ch "_" then
        if negb (is_prevDigit i) then false
        else underscoreOK_loop hex prevUnderscore s'
      else if is_prevUnderscore i then false
      else underscoreOK_loop hex prevOther s'
  end.

Definition is_base_letter (c : byte) : bool :=
  (lower c =? ch "b") || (lower c =? ch "o") || (lower c =? ch "x").

Definition underscoreOK (s : list byte) : bool :=
  let s :=
    match s with
    | c :: s' => if (c =? ch "-") || (c =? ch "+") then s' else s
    | [] => s
    end in
  match s with
  | c0 :: c1 :: s' =>
      if (c0 =? ch "0") && is_base_letter c1
      then underscoreOK_loop (lower c1 =? ch "x") prevDigit s'
      else underscoreOK_loop false prevStart s
  | _ => underscoreOK_loop false prevStart s
  end.

(** The digit loop of [ParseUint]; the result also tells whether an
    underscore was skipped. *)
Fixpoint digits_loop (base : Z) (base0 : bool) (cutoff maxVal : Z)
         (s : list byte) (n : uint64) (underscores : bool)
  : (uint64 * bool) + Err :=
  match s with
  | [] => inl (n, underscores)
  | c :: s' =>
      if (c =? ch "_") && base0 then
        digits_loop base base0 cutoff maxVal s' n true
      else
        let d :=
          if (ch "0" <=? c) && (c <=? ch "9") then Some (c - ch "0")
          else if (ch "a" <=? lower c) && (lower c <=? ch "z")
               then Some (lower c - ch "a" + 10)
               else None in
        match d with
        | None => inr ErrSyntax
        | Some d =>
            if base <=? d then inr ErrSyntax
            else if cutoff <=? n then inr ErrRange
            else
              let n := u64_mul n base in
              let n1 := u64_add n d in
              if (n1 <? n) || (maxVal <? n1) then inr ErrRange
              else digits_loop base base0 cutoff maxVal s' n1 underscores
        end
  end.

Definition ParseUint (s : list byte) (base bitSize : Z) : uint64 * option NumError :=
  let fail e := (0, Some {| Func := "ParseUint"; Num := s; Why := e |}) in
  match s with
  | [] => fail ErrSyntax
  | c0 :: t0 =>
      let base0 := base =? 0 in
      let prefixed :=
        if (2 <=? base) && (base <=? 36) then Some (base, s)
        else if base0 then
          if c0 =? ch "0" then
            match t0 with
            | c1 :: ((_ :: _) as t1) =>
                if lower c1 =? ch "b" then Some (2, t1)
                else if lower c1 =? ch "o" then Some (8, t1)
                else if lower c1 =? ch "x" then Some (16, t1)
                else Some (8, t0)
            | _ => Some (8, t0)
            end
          else Some (10, s)
        else None in
      match prefixed with
      | None => fail ErrBase
      | Some (base, digits) =>
          if (bitSize <? 0) || (64 <? bitSize) then fail ErrBitSize
          else
            let bitSize := if bitSize =? 0 then 64 else bitSize in
            let cutoff := maxUint64 / base + 1 in
            let maxVal := wrap64 (Z.shiftl 1 bitSize) - 1 in
            let maxVal := wrap64 maxVal in
            match digits_loop base base0 cutoff maxVal digits 0 false with
            | inr ErrRange =>
                (maxVal, Some {| Func := "ParseUint"; Num := s; Why := ErrRange |})
            | inr e => fail e
            | inl (n, underscores) =>
                if underscores && negb (underscoreOK s) then fail ErrSyntax
                else (n, None)
            end
      end
  end.

End strconv.

(* ================================================================== *)
(** ** fmt.Sscan on [*uint64] operands *)

Module fmt.

Inductive scanError :=
| io_EOF                                (* the input ran out before the operand *)
| expected_integer                      (* "expected integer" *)
| num_error (e : strconv.NumError).     (* the error of strconv.ParseUint *)

(** The scanner state: the runes not yet read and the token buffer. *)
Record ss := { input : list rune; buf : list rune }.

Definition isSpace (r : rune) : bool :=
  ((0x0009 <=? r) && (r <=? 0x000d))
  || (r =? 0x0020) || (r =? 0x0085) || (r =? 0x00a0) || (r =? 0x1680)
  || ((0x2000 <=? r) && (r <=? 0x200a))
  || ((0x2028 <=? r) && (r <=? 0x2029))
  || (r =? 0x202f) || (r =? 0x205f) || (r =? 0x3000).

Definition indexRune (ok : string) (r : rune) : bool :=
  existsb (Z.eqb r) (runes_of ok).

Definition peek (ok : string) (s : ss) : bool :=
  match input s with
  | [] => false
  | r :: _ => indexRune ok r
  end.

Definition consume (ok : string) (accept : bool) (s : ss) : bool * ss :=
  match input s with
  | [] => (false, s)
  | r :: rest =>
      if indexRune ok r then
        (true, {| input := rest; buf := if accept then buf s ++ [r] else buf s |})
      else if accept then (false, s)
      else (false, {| input := rest; buf := buf s |})
  end.

Definition accept (ok : string) (s : ss) : bool * ss := consume ok true s.

(** [SkipSpace] for [Sscan], where newlines count as space. *)
Fixpoint SkipSpace_runes (rs : list rune) : list rune :=
  match rs with
  | [] => []
  | r :: rest =>
      if (r =? 13) && peek (String "010" EmptyString) {| input := rest; buf := [] |}
      then SkipSpace_runes rest
      else if r =? 10 then SkipSpace_runes rest
      else if negb (isSpace r) then rs
      else SkipSpace_runes rest
  end.

Definition SkipSpace (s : ss) : ss :=
  {| input := SkipSpace_runes (input s); buf := buf s |}.

Definition binaryDigits : string := "01".
Definition octalDigits : string := "01234567".
Definition decimalDigits : string := "0123456789".
Definition hexadecimalDigits : string := "0123456789aAbBcCdDeEfF".

(** [scanBasePrefix]: base, digit set, whether a zero was found. *)
Definition scanBasePrefix (s : ss) : (Z * string * bool) * ss :=
  if negb (peek "0" s) then ((0, String.append decimalDigits "_", false), s)
  else
    let s := snd (accept "0" s) in
    if peek "bB" s then ((0, String.append binaryDigits "_", true), snd (consume "bB" true s))
    else if peek "oO" s then ((0, String.append octalDigits "_", true), snd (consume "oO" true s))
    else if peek "xX" s then ((0, String.append hexadecimalDigits "_", true), snd (consume "xX" true s))
    else ((0, String.append octalDigits "_", true), s).

(** The loop [for s.accept(digits) {}]. *)
Fixpoint accept_loop (digits : string) (rs tok : list rune) : ss :=
  match rs with
  | [] => {| input := []; buf := tok |}
  | r :: rest =>
      if indexRune digits r then accept_loop digits rest (tok ++ [r])
      else {| input := rs; buf := tok |}
  end.

Definition scanNumber (digits : string) (haveDigits : bool) (s : ss)
  : (list rune * ss) + scanError :=
  let first :=
    if haveDigits then inl s
    else
      match input s with
      | [] => inr io_EOF
      | _ :: _ =>
          let (ok, s') := accept digits s in
          if ok then inl s' else inr expected_integer
      end in
  match first with
  | inr e => inr e
  | inl s =>
      let s := accept_loop digits (input s) (buf s) in
      inl (buf s, s)
  end.

(** [scanUint('v', 64)], entered from [scanOne], which empties the buffer. *)
Definition scanUint (s : ss) : (uint64 * ss) + scanError :=
  let s := {| input := input s; buf := [] |} in
  let s := SkipSpace s in
  match input s with
  | [] => inr io_EOF
  | _ :: _ =>
      let '((base, digits, haveDigits), s) := scanBasePrefix s in
      match scanNumber digits haveDigits s with
      | inr e => inr e
      | inl (tok, s) =>
          match strconv.ParseUint tok base 64 with
          | (_, Some e) => inr (num_error e)
          | (i, None) => inl (i, s)
          end
      end
  end.

(** [Sscan(str, &a, &b, &c)]: the operands after the call, the number of
    operands scanned and the error. *)
Definition Sscan3 (str : string) (a b c : uint64)
  : (uint64 * uint64 * uint64) * Z * option scanError :=
  let s := {| input := runes_of str; buf := [] |} in
  match scanUint s with
  | inr e => ((a, b, c), 0, Some e)
  | inl (a, s) =>
      match scanUint s with
      | inr e => ((a, b, c), 1, Some e)
      | inl (b, s) =>
          match scanUint s with
          | inr e => ((a, b, c), 2, Some e)
          | inl (c, s) => ((a, b, c), 3, None)
          end
      end
  end.

End fmt.

(* ================================================================== *)
(** ** tracks.go *)

Record Album := {
  Album_ID : uint64;
  Album_Title : string;
  Album_Artist : string;
  DateAdded : string;
  DateReleased : string;
  LastModified : string;
  CDID : string;
  Location : string;
  ShelfLetter : string;
  ShelfNumber : string;
  Format : string;
  Medium : string;
  AddingMember : uint64;
  EditingMember : uint64;
  RecordLabel : string;
  Status : string
}.

Record Track := {
  ID : uint64;
  Title : string;
  Artist : string;
  Type_ : string;
  Length : string;
  Intro : uint64;
  IsClean : bool;
  IsDigitised : bool
}.

Definition LengthSec (t : Track) : uint64 * option fmt.scanError :=
  let '((hours, minutes, seconds), _, err) :=
    fmt.Sscan3 (strings_Replace_all (Length t) ":" " ") 0 0 0 in
  match err with
  | Some e => (0, Some e)
  | None =>
      (u64_add (u64_add (u64_mul (u64_mul hours 60) 60) (u64_mul minutes 60)) seconds,
       None)
  end.

Definition LengthUsec (t : Track) : uint64 * option fmt.scanError :=
  let (secs, err) := LengthSec t in
  match err with
  | Some e => (0, Some e)
  | None => (u64_mul secs 1000000, None)
  end.

Definition IntroUsec (t : Track) : uint64 := u64_mul (Intro t) 1000000.

Definition track_of_length (l : string) : Track :=
  {| ID := 0; Title := ""; Artist := ""; Type_ := ""; Length := l; Intro := 0;
     IsClean := false; IsDigitised := false |}.

(* ================================================================== *)
(** ** time.Parse for the layouts of user.go *)

Module time.

(** A [time.Time] with no sub-minute part, as civil fields in UTC. *)
Record Time := { year : Z; month : Z; day : Z; hour : Z; minute : Z }.

(** [Time{}]: January 1, year 1, 00:00 UTC. *)
Definition zero : Time := {| year := 1; month := 1; day := 1; hour := 0; minute := 0 |}.

(** The layout elements that occur in the two layouts. *)
Inductive std := stdLongYear | stdZeroMonth | stdZeroDay | stdHour | stdZeroMinute.

(** A layout, cut by [nextStdChunk] into (literal prefix, element) pairs. *)
Record layout := { text : string; chunks : list (string * std) }.

(** ["2006-01-02"] *)
Definition layout_ymd : layout :=
  {| text := "2006-01-02";
     chunks := [(""%string, stdLongYear); ("-"%string, stdZeroMonth);
                ("-"%string, stdZeroDay)] |}.

(** ["02/01/2006 15:04"] *)
Definition layout_dmy_hm : layout :=
  {| text := "02/01/2006 15:04";
     chunks := [(""%string, stdZeroDay); ("/"%string, stdZeroMonth);
                ("/"%string, stdLongYear); (" "%string, stdHour);
                (":"%string, stdZeroMinute)] |}.

Inductive problem :=
| bad_prefix                 (* the literal text of the layout is not there *)
| bad_element (e : std)      (* the element does not parse *)
| out_of_range (what : string)
| extra_text
| day_out_of_range.

Record ParseError := {
  Layout : string;
  Value : string;
  ValueElem : list byte;
  Problem : problem
}.

Definition sp : byte := 32.

Definition isDigit (s : list byte) (i : nat) : bool :=
  match nth_error s i with
  | None => false
  | Some c => (48 <=? c) && (c <=? 57)
  end.

Fixpoint cutspace (s : list byte) : list byte :=
  match s with
  | c :: s' => if c =? sp then cutspace s' else s
  | [] => []
  end.

(** [skip(value, prefix)].  A space of the prefix stands for zero or more
    spaces of the value; [cut] records that the spaces of the prefix that
    follow were already cut together with the first one. *)
Fixpoint skip_from (cut : bool) (value prefix : list byte) : option (list byte) :=
  match prefix with
  | [] => Some value
  | p :: prefix' =>
      if p =? sp then
        if cut then skip_from true value prefix'
        else
          match value with
          | v :: _ =>
              if negb (v =? sp) then None
              else skip_from true (cutspace value) prefix'
          | [] => skip_from true (cutspace value) prefix'
          end
      else
        match value with
        | v :: value' => if v =? p then skip_from false value' prefix' else None
        | [] => None
        end
  end.

Definition skip (value prefix : list byte) : option (list byte) :=
  skip_from false value prefix.

(** [getnum(s, fixed)]: one or two digits, exactly two when [fixed]. *)
Definition getnum (s : list byte) (fixed : bool) : option (Z * list byte) :=
  if negb (isDigit s 0) then None
  else if negb (isDigit s 1) then
    if fixed then None
    else match s with
         | c0 :: s' => Some (c0 - 48, s')
         | [] => None
         end
  else match s with
       | c0 :: c1 :: s' => Some ((c0 - 48) * 10 + (c1 - 48), s')
       | _ => None
       end.

(** [atoi] on a string known to start with a digit. *)
Fixpoint leadingInt (s : list byte) (x : Z) : option (Z * list byte) :=
  match s with
  | [] => Some (x, [])
  | c :: s' =>
      if (c <? 48) || (57 <? c) then Some (x, s)
      else if 2 ^ 63 / 10 <? x then None
      else
        let x := x * 10 + c - 48 in
        if 2 ^ 63 <? x then None else leadingInt s' x
  end.

Definition atoi (s : list byte) : option Z :=
  let (neg, s) :=
    match s with
    | c :: s' => if (c =? 45) || (c =? 43) then (c =? 45, s') else (false, s)
    | [] => (false, s)
    end in
  match leadingInt s 0 with
  | Some (q, []) => Some (if neg then - q else q)
  | _ => None
  end.

Definition isLeap (year : Z) : bool :=
  (year mod 4 =? 0) && (negb (year mod 100 =? 0) || (year mod 400 =? 0)).

Definition daysIn (m year : Z) : Z :=
  if m =? 2 then (if isLeap year then 29 else 28)
  else if (m =? 4) || (m =? 6) || (m =? 9) || (m =? 11) then 30
  else 31.

(** The fields collected while the value is read. *)
Record fields := { f_year : Z; f_month : Z; f_day : Z; f_hour : Z; f_min : Z }.

Definition fields0 : fields :=
  {| f_year := 0; f_month := -1; f_day := -1; f_hour := 0; f_min := 0 |}.

(** One layout element: the new fields and the rest of the value, or the
    problem found and the text it is reported at. *)
Definition element (e : std) (value : list byte) (f : fields)
  : (fields * list byte) + (list byte * problem) :=
  let bad := inr (value, bad_element e) in
  match e with
  | stdLongYear =>
      if (Nat.ltb (List.length value) 4) || negb (isDigit value 0) then bad
      else
        match atoi (firstn 4 value) with
        | None => bad
        | Some y =>
            inl ({| f_year := y; f_month := f_month f; f_day := f_day f;
                    f_hour := f_hour f; f_min := f_min f |}, skipn 4 value)
        end
  | stdZeroMonth =>
      match getnum value true with
      | None => bad
      | Some (m, value') =>
          if (m <=? 0) || (12 <? m) then inr (value', out_of_range "month")
          else inl ({| f_year := f_year f; f_month := m; f_day := f_day f;
                       f_hour := f_hour f; f_min := f_min f |}, value')
      end
  | stdZeroDay =>
      match getnum value true with
      | None => bad
      | Some (d, value') =>
          inl ({| f_year := f_year f; f_month := f_month f; f_day := d;
                  f_hour := f_hour f; f_min := f_min f |}, value')
      end
  | stdHour =>
      match getnum value false with
      | None => bad
      | Some (h, value') =>
          if (h <? 0) || (24 <=? h) then inr (value', out_of_range "hour")
          else inl ({| f_year := f_year f; f_month := f_month f; f_day := f_day f;
                       f_hour := h; f_min := f_min f |}, value')
      end
  | stdZeroMinute =>
      match getnum value true with
      | None => bad
      | Some (m, value') =>
          if (m <? 0) || (60 <=? m) then inr (value', out_of_range "minute")
          else inl ({| f_year := f_year f; f_month := f_month f; f_day := f_day f;
                       f_hour := f_hour f; f_min := m |}, value')
      end
  end.

(** The loop of [Parse] over the chunks of the layout. *)
Fixpoint parse_chunks (cs : list (string * std)) (value : list byte) (f : fields)
  : fields + (list byte * problem) :=
  match cs with
  | [] =>
      match value with
      | [] => inl f
      | _ :: _ => inr (value, extra_text)
      end
  | (prefix, e) :: cs' =>
      match skip value (bytes_of prefix) with
      | None => inr (value, bad_prefix)
      | Some value =>
          match element e value f with
          | inr p => inr p
          | inl (f, value) => parse_chunks cs' value f
          end
      end
  end.

Definition Parse (l : layout) (value : string) : Time * option ParseError :=
  let fail rest p :=
    (zero, Some {| Layout := text l; Value := value; ValueElem := rest; Problem := p |}) in
  match parse_chunks (chunks l) (bytes_of value) fields0 with
  | inr (rest, p) => fail rest p
  | inl f =>
      let month := if f_month f <? 0 then 1 else f_month f in
      let day := if f_day f <? 0 then 1 else f_day f in
      if (day <? 1) || (daysIn month (f_year f) <? day) then fail [] day_out_of_range
      else
        ({| year := f_year f; month := month; day := day;
            hour := f_hour f; minute := f_min f |}, None)
  end.

End time.


(* ================================================================== *)
(** ** fmt.Sprintf with a single [%d] *)

Definition itoa (n : Z) : string := NilZero.string_of_int (Z.to_int n).

Definition Sprintf_d (before : string) (n : Z) (after : string) : string :=
  String.append before (String.append (itoa n) after).

(* ================================================================== *)
(** ** The session, the transport and the JSON decoder *)

(** [json.RawMessage] is a byte slice. *)
Definition RawMessage := string.

(** What a call can do besides returning: a run-time panic. *)
Inductive outcome (A : Type) :=
| Returns (a : A)
| Panics (msg : string).
Arguments Returns {A} a.
Arguments Panics {A} msg.

Definition nil_dereference : string :=
  "runtime error: invalid memory address or nil pointer dereference".

(** [json.Unmarshal(data, &v)] for a target of type [T]: the target after
    the call and the error.  encoding/json is not modelled; each target
    type used by the client comes with its decoder. *)
Class Unmarshaler (json_error T : Type) :=
  Unmarshal : RawMessage -> T -> T * option json_error.

Record Officership := {
  OfficerId : Z;
  OfficerName : string;
  TeamId : Z;
  FromDateRaw : string;
  FromDate : time.Time;
  TillDateRaw : string;
  TillDate : time.Time
}.

Record Photo := {
  PhotoId : Z;
  DateAddedRaw : string;
  Photo_DateAdded : time.Time;
  Photo_Format : string;
  Owner : Z;
  Url : string
}.

Definition Officership_zero : Officership :=
  {| OfficerId := 0; OfficerName := ""; TeamId := 0; FromDateRaw := "";
     FromDate := time.zero; TillDateRaw := ""; TillDate := time.zero |}.

Definition Photo_zero : Photo :=
  {| PhotoId := 0; DateAddedRaw := ""; Photo_DateAdded := time.zero;
     Photo_Format := ""; Owner := 0; Url := "" |}.

Definition Track_zero : Track :=
  {| ID := 0; Title := ""; Artist := ""; Type_ := ""; Length := ""; Intro := 0;
     IsClean := false; IsDigitised := false |}.

Definition Album_zero : Album :=
  {| Album_ID := 0; Album_Title := ""; Album_Artist := ""; DateAdded := "";
     DateReleased := ""; LastModified := ""; CDID := ""; Location := "";
     ShelfLetter := ""; ShelfNumber := ""; Format := ""; Medium := "";
     AddingMember := 0; EditingMember := 0; RecordLabel := ""; Status := "" |}.

Definition set_FromDate (o : Officership) (t : time.Time) : Officership :=
  {| OfficerId := OfficerId o; OfficerName := OfficerName o; TeamId := TeamId o;
     FromDateRaw := FromDateRaw o; FromDate := t;
     TillDateRaw := TillDateRaw o; TillDate := TillDate o |}.

Definition set_TillDate (o : Officership) (t : time.Time) : Officership :=
  {| OfficerId := OfficerId o; OfficerName := OfficerName o; TeamId := TeamId o;
     FromDateRaw := FromDateRaw o; FromDate := FromDate o;
     TillDateRaw := TillDateRaw o; TillDate := t |}.

Definition set_DateAdded (p : Photo) (t : time.Time) : Photo :=
  {| PhotoId := PhotoId p; DateAddedRaw := DateAddedRaw p; Photo_DateAdded := t;
     Photo_Format := Photo_Format p; Owner := Owner p; Url := Url p |}.

(** [l[k] = x]; the loops below only write inside the slice. *)
Fixpoint update {A : Type} (k : nat) (x : A) (l : list A) : list A :=
  match l, k with
  | [], _ => []
  | _ :: l', O => x :: l'
  | y :: l', S k' => y :: update k' x l'
  end.

Definition is_empty (s : string) : bool :=
  match s with EmptyString => true | _ => false end.

Section Client.

(** The errors of the transport and of the decoder are opaque. *)
Context {transport_error json_error : Type}.

(** The remote service as the transport sees it, and one call of the
    transport: the endpoint and the mixins go in, a payload (possibly
    [nil]) and an error (possibly [nil]) come out. *)
Context {Remote : Type}.
Variable roundTrip :
  Remote -> string -> list string ->
  (option RawMessage * option transport_error) * Remote.

Context {ShowMeta : Type}.
Context {dec_string : Unmarshaler json_error string}.
Context {dec_Track : Unmarshaler json_error Track}.
Context {dec_Album : Unmarshaler json_error Album}.
Context {dec_Photo : Unmarshaler json_error Photo}.
Context {dec_Officerships : Unmarshaler json_error (list Officership)}.
Context {dec_ShowMetas : Unmarshaler json_error (list ShowMeta)}.

(** The values of Go's [error] interface that occur in the client. *)
Inductive error :=
| TransportError (e : transport_error)    (* returned by apiRequest *)
| UnmarshalError (e : json_error)         (* returned by json.Unmarshal *)
| errors_New (text : string)              (* made by errors.New here *)
| TimeParseError (e : time.ParseError).   (* returned by time.Parse *)

(** A session: the remote end and, as a ghost field, the endpoints
    requested so far. *)
Record Session := { remote : Remote; requests : list string }.

Definition apiRequest (endpoint : string) (mixins : list string) (s : Session)
  : (option RawMessage * option error) * Session :=
  let '((data, err), r) := roundTrip (remote s) endpoint mixins in
  ((data, option_map TransportError err),
   {| remote := r; requests := requests s ++ [endpoint] |}).

Definition json_Unmarshal {T : Type} {dec : Unmarshaler json_error T}
           (data : RawMessage) (v : T) : T * option error :=
  let (v, err) := Unmarshal data v in (v, option_map UnmarshalError err).

Definition time_Parse (l : time.layout) (value : string) : time.Time * option error :=
  let (t, err) := time.Parse l value in (t, option_map TimeParseError err).

(** *** tracks.go *)

Definition GetTrack (trackid : uint64) (s : Session)
  : outcome (option Track * option error) * Session :=
  let '((data, err), s) := apiRequest (Sprintf_d "/track/" trackid "") [] s in
  match err with
  | Some e => (Returns (None, Some e), s)
  | None =>
      match data with
      | None => (Panics nil_dereference, s)
      | Some data =>
          let (track, err) := json_Unmarshal data Track_zero in
          match err with
          | Some e => (Returns (None, Some e), s)
          | None => (Returns (Some track, None), s)
          end
      end
  end.

Definition GetTrackTitle (trackid : uint64) (s : Session)
  : outcome (string * option error) * Session :=
  let '((data, err), s) := apiRequest (Sprintf_d "/track/" trackid "/title") [] s in
  match err with
  | Some e => (Returns (""%string, Some e), s)
  | None =>
      match data with
      | None => (Panics nil_dereference, s)
      | Some data =>
          let (title, err) := json_Unmarshal data ""%string in
          match err with
          | Some e => (Returns (""%string, Some e), s)
          | None => (Returns (title, None), s)
          end
      end
  end.

Definition GetTrackAlbum (trackid : uint64) (s : Session)
  : outcome (option Album * option error) * Session :=
  let '((data, err), s) := apiRequest (Sprintf_d "/track/" trackid "/album") [] s in
  match err with
  | Some e => (Returns (None, Some e), s)
  | None =>
      match data with
      | None => (Panics nil_dereference, s)
      | Some data =>
          let (album, err) := json_Unmarshal data Album_zero in
          match err with
          | Some e => (Returns (None, Some e), s)
          | None => (Returns (Some album, None), s)
          end
      end
  end.

Definition GetAlbum (t : Track) (s : Session) := GetTrackAlbum (ID t) s.

(** *** user.go *)

Definition GetUserBio (id : Z) (s : Session)
  : outcome (string * option error) * Session :=
  let '((data, err), s) := apiRequest (Sprintf_d "/user/" id "/bio/") [] s in
  match err with
  | Some e => (Returns (""%string, Some e), s)
  | None =>
      match data with
      | None => (Returns (""%string, Some (errors_New "No bio set")), s)
      | Some data => (Returns (json_Unmarshal data ""%string), s)
      end
  end.

Definition GetUserName (id : Z) (s : Session)
  : outcome (string * option error) * Session :=
  let '((data, err), s) := apiRequest (Sprintf_d "/user/" id "/name/") [] s in
  match err with
  | Some e => (Returns (""%string, Some e), s)
  | None =>
      match data with
      | None => (Panics nil_dereference, s)
      | Some data => (Returns (json_Unmarshal data ""%string), s)
      end
  end.

Definition GetUserProfilePhoto (id : Z) (s : Session)
  : outcome (Photo * option error) * Session :=
  let '((data, err), s) := apiRequest (Sprintf_d "/user/" id "/profilephoto/") [] s in
  match err with
  | Some e => (Returns (Photo_zero, Some e), s)
  | None =>
      match data with
      | None => (Returns (Photo_zero, Some (errors_New "No profile picture set")), s)
      | Some data =>
          let (profilephoto, err) := json_Unmarshal data Photo_zero in
          match err with
          | Some e => (Returns (profilephoto, Some e), s)
          | None =>
              let (t, err) := time_Parse time.layout_dmy_hm (DateAddedRaw profilephoto) in
              (Returns (set_DateAdded profilephoto t, err), s)
          end
      end
  end.

(** The body of the loop of [GetUserOfficerships] at index [k], where
    [v] is the copy of element [k] made by [range]: the slice after the
    body and the error that ends the loop, if any. *)
Definition officership_body (k : nat) (v : Officership)
           (officerships : list Officership) : list Officership * option error :=
  let at_k := nth k officerships Officership_zero in
  let '(officerships, err) :=
    if negb (is_empty (FromDateRaw at_k)) then
      let (t, err) := time_Parse time.layout_ymd (FromDateRaw v) in
      (update k (set_FromDate at_k t) officerships, err)
    else (officerships, None) in
  match err with
  | Some e => (officerships, Some e)
  | None =>
      let at_k := nth k officerships Officership_zero in
      if negb (is_empty (TillDateRaw at_k)) then
        let (t, err) := time_Parse time.layout_ymd (FromDateRaw v) in
        (update k (set_TillDate at_k t) officerships, err)
      else (officerships, None)
  end.

(** [for k, v := range officerships], with [n] iterations left. *)
Fixpoint officerships_range (n k : nat) (officerships : list Officership)
  : list Officership * option error :=
  match n with
  | O => (officerships, None)
  | S n' =>
      let v := nth k officerships Officership_zero in
      let '(officerships, err) := officership_body k v officerships in
      match err with
      | Some e => (officerships, Some e)
      | None => officerships_range n' (S k) officerships
      end
  end.

Definition GetUserOfficerships (id : Z) (s : Session)
  : outcome (list Officership * option error) * Session :=
  let '((data, err), s) := apiRequest (Sprintf_d "/user/" id "/officerships/") [] s in
  match err with
  | Some e => (Returns ([], Some e), s)
  | None =>
      match data with
      | None => (Panics nil_dereference, s)
      | Some data =>
          let (officerships, err) := json_Unmarshal data [] in
          match err with
          | Some e => (Returns (officerships, Some e), s)
          | None =>
              (Returns (officerships_range (List.length officerships) 0 officerships), s)
          end
      end
  end.

Definition GetUserShowCredits (id : Z) (s : Session)
  : outcome (list ShowMeta * option error) * Session :=
  let '((data, err), s) := apiRequest (Sprintf_d "/user/" id "/shows/") [] s in
  match err with
  | Some e => (Returns ([], Some e), s)
  | None =>
      match data with
      | None => (Panics nil_dereference, s)
      | Some data => (Returns (json_Unmarshal data []), s)
      end
  end.

(** *** The loop of [GetUserOfficerships], entry by entry *)

(** What the body of the loop does to the entry it visits. *)
Definition normalise (v : Officership) : Officership * option error :=
  let '(v1, err) :=
    if negb (is_empty (FromDateRaw v)) then
      let (t, err) := time_Parse time.layout_ymd (FromDateRaw v) in
      (set_FromDate v t, err)
    else (v, None) in
  match err with
  | Some e => (v1, Some e)
  | None =>
      if negb (is_empty (TillDateRaw v1)) then
        let (t, err) := time_Parse time.layout_ymd (FromDateRaw v) in
        (set_TillDate v1 t, err)
      else (v1, None)
  end.

(** The entries in order, up to and including the first one that fails. *)
Fixpoint normalise_all (os : list Officership) : list Officership * option error :=
  match os with
  | [] => ([], None)
  | v :: rest =>
      let (v', err) := normalise v in
      match err with
      | Some e => (v' :: rest, Some e)
      | None => let (rest', err) := normalise_all rest in (v' :: rest', err)
      end
  end.

End Client.

(* ================================================================== *)
(** ** The length check in the words of the specification *)

(** The specification asks that the length, once every colon is a space,
    scans as exactly three integers.  Read by its words: the text splits
    at white space into exactly three fields, each an optionally signed
    run of decimal digits. *)






(* ================================================================== *)
(** ** The fields of a length and the integers they hold *)











(* ================================================================== *)
(** ** Predicates on officerships *)

(** The fields that come from the wire are the same in [o] and [o']. *)
Definition same_raw (o o' : Officership) : Prop :=
  OfficerId o' = OfficerId o /\ OfficerName o' = OfficerName o
  /\ TeamId o' = TeamId o
  /\ FromDateRaw o' = FromDateRaw o /\ TillDateRaw o' = TillDateRaw o.

(** [o'] has the dates the loop derives for [o]: each date is parsed when
    its raw string is not empty and left alone otherwise; both parses read
    [FromDateRaw]. *)
Definition carries_parsed_dates (o o' : Officership) : Prop :=
  (FromDateRaw o <> ""%string ->
   time.Parse time.layout_ymd (FromDateRaw o) = (FromDate o', None))
  /\ (FromDateRaw o = ""%string -> FromDate o' = FromDate o)
  /\ (TillDateRaw o <> ""%string ->
      time.Parse time.layout_ymd (FromDateRaw o) = (TillDate o', None))
  /\ (TillDateRaw o = ""%string -> TillDate o' = TillDate o).

Definition dates_zero (o : Officership) : Prop :=
  FromDate o = time.zero /\ TillDate o = time.zero.

(** [o'] is [o] after the loop has failed on it: the date whose parse
    failed is the zero time (the from date when there is a raw from date,
    the till date otherwise), the other date is as it was. *)
Definition failed_dates (o o' : Officership) : Prop :=
  (FromDateRaw o <> ""%string ->
   FromDate o' = time.zero /\ TillDate o' = TillDate o)
  /\ (FromDateRaw o = ""%string ->
      FromDate o' = FromDate o /\ TillDate o' = time.zero).

(* ================================================================== *)
(** ** Test doubles: a canned transport and table-driven decoders *)

Fixpoint lookup {A : Type} (key : string) (table : list (string * A)) : option A :=
  match table with
  | [] => None
  | (k, a) :: table' => if String.eqb key k then Some a else lookup key table'
  end.

(** A transport that answers from a table and fails on any other endpoint. *)
Definition canned (table : list (string * (option RawMessage * option string)))
  : unit -> string -> list string -> (option RawMessage * option string) * unit :=
  fun r endpoint _ =>
    (match lookup endpoint table with
     | Some answer => answer
     | None => (None, Some "404"%string)
     end, r).

(** A decoder that knows the payloads of a table and rejects the others. *)
Definition table_decoder {T : Type} (table : list (string * T)) : Unmarshaler string T :=
  fun data v =>
    match lookup data table with
    | Some decoded => (decoded, None)
    | None => (v, Some "invalid character"%string)
    end.

(** The two bytes of the JSON text of the empty string. *)
Definition json_empty_string : RawMessage := String "034" (String "034" EmptyString).

Definition session0 : @Session unit := {| remote := tt; requests := [] |}.

Definition track_with_intro (n : uint64) : Track :=
  {| ID := 0; Title := ""; Artist := ""; Type_ := ""; Length := ""; Intro := n;
     IsClean := false; IsDigitised := false |}.

(** In the tables below a payload is named by a short text that stands
    for the JSON document; the decoders map it to the value the document
    would decode to. *)

Definition bio_transport (answer : option RawMessage * option string) :=
  canned [("/user/7/bio/"%string, answer)].

Definition photo_on_wire : Photo :=
  {| PhotoId := 12; DateAddedRaw := "15/06/2021 13:45"; Photo_DateAdded := time.zero;
     Photo_Format := "image/png"; Owner := 7; Url := "/media/12.png" |}.

Definition officer (from till : string) : Officership :=
  {| OfficerId := 3; OfficerName := "Station Manager"; TeamId := 1;
     FromDateRaw := from; FromDate := time.zero;
     TillDateRaw := till; TillDate := time.zero |}.

Definition officerships_transport :=
  canned [("/user/7/officerships/"%string, (Some "officerships-7"%string, None))].

Definition three_officerships : list Officership :=
  [officer "2019-09-01" ""; officer "next year" ""; officer "2021-01-01" "2021-12-31"].

(** Officerships as a payload with [FromDate] and [TillDate] keys decodes:
    the derived dates are filled by the decoder. *)
Definition new_year_2020 : time.Time :=
  {| time.year := 2020; time.month := 1; time.day := 1;
     time.hour := 0; time.minute := 0 |}.

Definition dated_officerships : list Officership :=
  [set_TillDate (officer "next year" "") new_year_2020;
   set_FromDate (officer "2021-01-01" "") new_year_2020].

(* ================================================================== *)
(** ** Auxiliary notions for the properties below *)

(** The value of a decimal numeral read from the left, on top of [acc]. *)
Fixpoint uint_value (d : Decimal.uint) (acc : Z) : Z :=
  match d with
  | Decimal.Nil => acc
  | Decimal.D0 l => uint_value l (10 * acc)
  | Decimal.D1 l => uint_value l (10 * acc + 1)
  | Decimal.D2 l => uint_value l (10 * acc + 2)
  | Decimal.D3 l => uint_value l (10 * acc + 3)
  | Decimal.D4 l => uint_value l (10 * acc + 4)
  | Decimal.D5 l => uint_value l (10 * acc + 5)
  | Decimal.D6 l => uint_value l (10 * acc + 6)
  | Decimal.D7 l => uint_value l (10 * acc + 7)
  | Decimal.D8 l => uint_value l (10 * acc + 8)
  | Decimal.D9 l => uint_value l (10 * acc + 9)
  end.

Definition numeral (d : Decimal.uint) : list byte := bytes_of (NilEmpty.string_of_uint d).

(** The scanner state with a space and more text after its input. *)
Definition ext (y : list rune) (s : fmt.ss) : fmt.ss :=
  {| fmt.input := fmt.input s ++ 32 :: y; fmt.buf := fmt.buf s |}.

(* ================================================================== *)
(** ** Lengths and dates as they are written *)

(** A byte that [LengthSec] treats as white space: the colon it replaces
    by a space, the space, and the control characters from tab to
    carriage return. *)
Definition is_separator (c : byte) : Prop := c = 58 \/ c = 32 \/ 9 <= c <= 13.

(** A length with nothing but separators in it. *)
Definition blank (l : string) : Prop := Forall is_separator (bytes_of l).

(** [txt] is a field that [LengthSec] reads as [n]: the decimal numeral of
    [n] without leading zeros, or a zero followed by one digit up to 7. *)
Definition field_text (txt : string) (n : Z) : Prop :=
  (0 <= n < 2 ^ 64 /\ txt = itoa n)
  \/ (0 <= n <= 7 /\ txt = String "0" (itoa n)).

(** [t] is a calendar date and a time of day, with a four-digit year. *)
Definition valid_date (t : time.Time) : Prop :=
  0 <= time.year t <= 9999
  /\ 1 <= time.month t <= 12
  /\ 1 <= time.day t <= time.daysIn (time.month t) (time.year t)
  /\ 0 <= time.hour t < 24
  /\ 0 <= time.minute t < 60.

(** The decimal digit [n] as a character, and numbers in two and four
    digits with leading zeros. *)
Definition digit_char (n : Z) : ascii := ascii_of_N (Z.to_N (48 + n)).

Definition two_digits (n : Z) : string :=
  String (digit_char (n / 10)) (String (digit_char (n mod 10)) EmptyString).

Definition four_digits (n : Z) : string :=
  String (digit_char (n / 1000))
    (String (digit_char (n / 100 mod 10))
       (String (digit_char (n / 10 mod 10))
          (String (digit_char (n mod 10)) EmptyString))).

(** A date as year-month-day, and a date and time as
    day/month/year hour:minute. *)
Definition text_ymd (t : time.Time) : string :=
  (four_digits (time.year t) ++ "-" ++ two_digits (time.month t) ++ "-"
   ++ two_digits (time.day t))%string.

Definition text_dmy_hm (t : time.Time) : string :=
  (two_digits (time.day t) ++ "/" ++ two_digits (time.month t) ++ "/"
   ++ four_digits (time.year t) ++ " " ++ two_digits (time.hour t) ++ ":"
   ++ two_digits (time.minute t))%string.

Fixpoint pow10 (n : nat) : Z := match n with O => 1 | S n' => 10 * pow10 n' end.

(** The fields [time.Parse] has collected so far are in range (the month
    is -1 until the layout's month element has been read). *)
Definition fields_ok (f : time.fields) : Prop :=
  0 <= time.f_year f <= 9999
  /\ (time.f_month f = -1 \/ 1 <= time.f_month f <= 12)
  /\ 0 <= time.f_hour f < 24
  /\ 0 <= time.f_min f < 60.

(** The raw dates of [o] are ones the loop can parse: when either is
    there, the raw from date parses (the loop reads it for both). *)
Definition dates_parse (o : Officership) : Prop :=
  FromDateRaw o <> ""%string \/ TillDateRaw o <> ""%string ->
  snd (time.Parse time.layout_ymd (FromDateRaw o)) = None.

(** The raw dates of [o] are well formed for the loop: both empty, or the
    raw from date is a valid date written as year-month-day. *)
Definition well_formed_dates (o : Officership) : Prop :=
  (FromDateRaw o = ""%string /\ TillDateRaw o = ""%string)
  \/ exists t, valid_date t /\ time.hour t = 0 /\ time.minute t = 0
               /\ FromDateRaw o = text_ymd t.

(** More test doubles: a photo whose date is not in the layout, the date
    of [photo_on_wire], and officerships of which one has a till date and
    no from date. *)
Definition photo_undated : Photo :=
  {| PhotoId := 13; DateAddedRaw := "yesterday"; Photo_DateAdded := time.zero;
     Photo_Format := "image/png"; Owner := 7; Url := "/media/13.png" |}.

Definition june_15 : time.Time :=
  {| time.year := 2021; time.month := 6; time.day := 15;
     time.hour := 13; time.minute := 45 |}.

Definition jan_1 : time.Time :=
  {| time.year := 2020; time.month := 1; time.day := 1;
     time.hour := 0; time.minute := 0 |}.

Definition profilephoto_transport :=
  canned [("/user/7/profilephoto/"%string, (Some "photo"%string, None))].

Definition till_only_officerships : list Officership :=
  [officer "2019-09-01" ""; officer "" "2021-06-30"].

Definition failing_transport
  : unit -> string -> list string -> (option RawMessage * option string) * unit :=
  canned [].

Definition silent_transport
  : unit -> string -> list string -> (option RawMessage * option string) * unit :=
  fun r _ _ => ((None, None), r).

(* ================================================================== *)
(** * Properties of tracks.go *)

Lemma wrap64_range (z : Z) : 0 <= wrap64 z < 2 ^ 64.
Proof. unfold wrap64. apply Z.mod_pos_bound. reflexivity. Qed.

Lemma wrap64_small (z : Z) : 0 <= z < 2 ^ 64 -> wrap64 z = z.
Proof. intros H. unfold wrap64. apply Z.mod_small. exact H. Qed.

Lemma LengthSec_range (t : Track) (secs : uint64) (err : option fmt.scanError) :
  LengthSec t = (secs, err) -> 0 <= secs < 2 ^ 64.
Proof.
  unfold LengthSec.
  destruct (fmt.Sscan3 _ 0 0 0) as [[[[h m] s] n] [e|]]; intros H; inversion H; subst.
  - split; [lia | reflexivity].
  - unfold u64_add at 1. apply wrap64_range.
Qed.

(** The example of the specification: ["1:02:03"] is 3723 seconds. *)
Example LengthSec_1_02_03 : LengthSec (track_of_length "1:02:03") = (3723, None).
Proof. vm_compute. reflexivity. Qed.

(** C3.  A length whose minutes or seconds field starts with a zero and
    continues with an 8 or a 9 is not read as hours:minutes:seconds.  The
    scanner takes the leading zero as the start of an octal literal, stops
    in front of the 8 and reads the rest as the next operand: ["1:08:09"]
    gives hours 1, minutes 0, seconds 8, that is 3608 seconds and no error,
    where the length is 1*3600 + 8*60 + 9 = 4089 seconds. *)
Theorem LengthSec_octal_field :
  LengthSec (track_of_length "1:08:09") = (3608, None)
  /\ 3608 <> 1 * 3600 + 8 * 60 + 9
  /\ LengthSec (track_of_length "00:08:30") = (8, None).
Proof.
  split; [vm_compute; reflexivity|].
  split; [lia|].
  vm_compute; reflexivity.
Qed.


(** C7, as stated, fails: for a length of 18446744073710 seconds the
    product with 1,000,000 does not fit 64 bits and [LengthUsec] returns
    the product reduced modulo 2^64. *)
Lemma LengthUsec_wraps :
  LengthSec (track_of_length "0:0:18446744073710") = (18446744073710, None)
  /\ LengthUsec (track_of_length "0:0:18446744073710") = (448384, None)
  /\ 448384 <> 18446744073710 * 1000000.
Proof.
  split; [vm_compute; reflexivity|].
  split; [vm_compute; reflexivity|lia].
Qed.

(** C7, amended.  When [LengthSec] succeeds with [secs], [LengthUsec]
    succeeds with [secs * 1000000] reduced modulo 2^64, which is the exact
    product as long as [secs <= 18446744073709]; when [LengthSec] fails,
    [LengthUsec] returns 0 and the same error. *)
Theorem LengthUsec_spec (t : Track) :
  (forall secs, LengthSec t = (secs, None) ->
     LengthUsec t = ((secs * 1000000) mod 2 ^ 64, None)
     /\ (secs <= 18446744073709 -> LengthUsec t = (secs * 1000000, None)))
  /\ (forall v e, LengthSec t = (v, Some e) -> LengthUsec t = (0, Some e)).
Proof.
  split.
  - intros secs H. pose proof (LengthSec_range _ _ _ H) as R.
    unfold LengthUsec. rewrite H. split; [reflexivity|].
    intros Hle. unfold u64_mul. rewrite wrap64_small; [reflexivity | lia].
  - intros v e H. unfold LengthUsec. rewrite H. reflexivity.
Qed.

(** C8, as stated, fails: an intro of 18446744073710 seconds gives 448384,
    not 18446744073710000000. *)
Lemma IntroUsec_wraps :
  IntroUsec (track_with_intro 18446744073710) = 448384
  /\ 448384 <> 18446744073710 * 1000000.
Proof. split; [vm_compute; reflexivity | lia]. Qed.

(** C8, amended.  [IntroUsec] has no error result; for every 64-bit intro
    it returns [Intro * 1000000] reduced modulo 2^64, which is the exact
    product as long as [Intro <= 18446744073709] (zero included). *)
Theorem IntroUsec_spec (t : Track) :
  0 <= Intro t < 2 ^ 64 ->
  IntroUsec t = (Intro t * 1000000) mod 2 ^ 64
  /\ (Intro t <= 18446744073709 -> IntroUsec t = Intro t * 1000000).
Proof.
  intros R. split; [reflexivity|].
  intros Hle. unfold IntroUsec, u64_mul. apply wrap64_small. lia.
Qed.

(** C8 at an intro of zero seconds. *)
Lemma IntroUsec_spec_witness :
  0 <= Intro (track_with_intro 0) < 2 ^ 64
  /\ IntroUsec (track_with_intro 0) = (Intro (track_with_intro 0) * 1000000) mod 2 ^ 64
  /\ (Intro (track_with_intro 0) <= 18446744073709 ->
      IntroUsec (track_with_intro 0) = Intro (track_with_intro 0) * 1000000).
Proof.
  assert (R : 0 <= Intro (track_with_intro 0) < 2 ^ 64) by (simpl; lia).
  split; [exact R|].
  exact (IntroUsec_spec (track_with_intro 0) R).
Defined.

(** ** Text after the third operand is not read *)

Lemma Replace_all_app (a b : string) (o n : ascii) :
  strings_Replace_all (a ++ b) o n
  = (strings_Replace_all a o n ++ strings_Replace_all b o n)%string.
Proof. induction a as [|c a IH]; simpl; [reflexivity | rewrite IH; reflexivity]. Qed.

Lemma bytes_of_app (a b : string) : bytes_of (a ++ b) = bytes_of a ++ bytes_of b.
Proof.
  unfold bytes_of. induction a as [|c a IH]; simpl; [reflexivity | rewrite IH; reflexivity].
Qed.

Lemma first_lo (p0 sz lo hi : Z) : utf8.first p0 = Some (sz, lo, hi) -> 0x80 <= lo.
Proof.
  unfold utf8.first, utf8.locb.
  repeat match goal with |- context [if ?c then _ else _] => destruct c end;
    intros H; inversion H; subst; lia.
Qed.

Lemma outside_ascii (lo hi c : Z) : 0x80 <= lo -> c < 0x80 -> utf8.outside lo hi c = true.
Proof.
  intros Hlo Hc. unfold utf8.outside.
  destruct (Z.ltb_spec c lo); [reflexivity | lia].
Qed.

Lemma decode_app_ascii_len (n : nat) :
  forall (a : list byte) (c : Z) (b : list byte),
    (List.length a <= n)%nat -> c < 0x80 ->
    utf8.decode (a ++ c :: b) = utf8.decode a ++ c :: utf8.decode b.
Proof.
  induction n as [|n IH]; intros a c b Hlen Hc.
  - destruct a; [|simpl in Hlen; lia].
    simpl. unfold utf8.RuneSelf. destruct (Z.ltb_spec c 128); [reflexivity | lia].
  - destruct a as [|p0 a1].
    { simpl. unfold utf8.RuneSelf. destruct (Z.ltb_spec c 128); [reflexivity | lia]. }
    simpl in Hlen.
    assert (IH1 : utf8.decode (a1 ++ c :: b) = utf8.decode a1 ++ c :: utf8.decode b)
      by (apply IH; [lia | exact Hc]).
    change ((p0 :: a1) ++ c :: b) with (p0 :: (a1 ++ c :: b)).
    cbn [utf8.decode]. rewrite ?IH1. clear IH1.
    remember (utf8.decode a1) as D1 eqn:E1. clear E1.
    destruct (p0 <? utf8.RuneSelf); [reflexivity|].
    destruct (utf8.first p0) as [[[sz lo] hi]|] eqn:F; [|reflexivity].
    pose proof (first_lo _ _ _ _ F) as Hlo.
    destruct a1 as [|b1 a2]; cbn [app].
    { rewrite (outside_ascii lo hi c Hlo Hc). reflexivity. }
    destruct (utf8.outside lo hi b1); [reflexivity|].
    assert (IH2 : utf8.decode (a2 ++ c :: b) = utf8.decode a2 ++ c :: utf8.decode b)
      by (apply IH; [simpl in Hlen; lia | exact Hc]).
    rewrite ?IH2. clear IH2.
    remember (utf8.decode a2) as D2 eqn:E2. clear E2.
    destruct (sz <=? 2); [reflexivity|].
    destruct a2 as [|b2 a3]; cbn [app].
    { rewrite (outside_ascii utf8.locb utf8.hicb c); [reflexivity|unfold utf8.locb; lia|exact Hc]. }
    destruct (utf8.outside utf8.locb utf8.hicb b2); [reflexivity|].
    assert (IH3 : utf8.decode (a3 ++ c :: b) = utf8.decode a3 ++ c :: utf8.decode b)
      by (apply IH; [simpl in Hlen; lia | exact Hc]).
    rewrite ?IH3. clear IH3.
    remember (utf8.decode a3) as D3 eqn:E3. clear E3.
    destruct (sz <=? 3); [reflexivity|].
    destruct a3 as [|b3 a4]; cbn [app].
    { rewrite (outside_ascii utf8.locb utf8.hicb c); [reflexivity|unfold utf8.locb; lia|exact Hc]. }
    destruct (utf8.outside utf8.locb utf8.hicb b3); [reflexivity|].
    rewrite (IH a4 c b); [reflexivity | simpl in Hlen; lia | exact Hc].
Qed.

Lemma decode_app_ascii (a : list byte) (c : Z) (b : list byte) :
  c < 0x80 -> utf8.decode (a ++ c :: b) = utf8.decode a ++ c :: utf8.decode b.
Proof. apply (decode_app_ascii_len (List.length a)). apply Nat.le_refl. Qed.

Lemma SkipSpace_runes_cons (r : rune) (rest : list rune) :
  fmt.SkipSpace_runes (r :: rest)
  = if fmt.isSpace r then fmt.SkipSpace_runes rest else r :: rest.
Proof.
  cbn [fmt.SkipSpace_runes].
  destruct (Z.eqb_spec r 13) as [->|H13].
  - destruct (fmt.peek _ _); reflexivity.
  - cbn [andb]. destruct (Z.eqb_spec r 10) as [->|H10]; [reflexivity|].
    destruct (fmt.isSpace r); reflexivity.
Qed.

Lemma SkipSpace_runes_app (a y : list rune) :
  fmt.SkipSpace_runes a <> [] ->
  fmt.SkipSpace_runes (a ++ y) = fmt.SkipSpace_runes a ++ y.
Proof.
  induction a as [|r a IH]; intros H.
  - exfalso. apply H. reflexivity.
  - change ((r :: a) ++ y) with (r :: (a ++ y)).
    rewrite !SkipSpace_runes_cons in *.
    destruct (fmt.isSpace r); [apply IH; exact H | reflexivity].
Qed.

Lemma peek_ext (ok : string) (y : list rune) (s : fmt.ss) :
  fmt.indexRune ok 32 = false -> fmt.peek ok (ext y s) = fmt.peek ok s.
Proof.
  intros H. destruct s as [[|r rest] b]; unfold fmt.peek, ext; cbn [fmt.input app];
    [exact H | reflexivity].
Qed.

Lemma consume_ext (ok : string) (y : list rune) (s : fmt.ss) :
  fmt.indexRune ok 32 = false ->
  fmt.consume ok true (ext y s)
  = (fst (fmt.consume ok true s), ext y (snd (fmt.consume ok true s))).
Proof.
  intros H. destruct s as [[|r rest] b]; unfold fmt.consume, ext; cbn [fmt.input fmt.buf app].
  - rewrite H. reflexivity.
  - destruct (fmt.indexRune ok r); reflexivity.
Qed.

Lemma accept_loop_ext (digits : string) (y : list rune) :
  fmt.indexRune digits 32 = false ->
  forall rs tok,
    fmt.accept_loop digits (rs ++ 32 :: y) tok = ext y (fmt.accept_loop digits rs tok).
Proof.
  intros H. induction rs as [|r rs IH]; intros tok.
  - cbn [app fmt.accept_loop]. rewrite H. reflexivity.
  - cbn [app fmt.accept_loop]. destruct (fmt.indexRune digits r); [apply IH | reflexivity].
Qed.

Lemma accept_loop_ext_state (digits : string) (y : list rune) (s : fmt.ss) :
  fmt.indexRune digits 32 = false ->
  fmt.accept_loop digits (fmt.input (ext y s)) (fmt.buf (ext y s))
  = ext y (fmt.accept_loop digits (fmt.input s) (fmt.buf s)).
Proof. intros H. unfold ext at 1 2. cbn [fmt.input fmt.buf]. apply accept_loop_ext, H. Qed.

Lemma scanBasePrefix_ext (y : list rune) (s : fmt.ss) :
  fmt.scanBasePrefix (ext y s)
  = (fst (fmt.scanBasePrefix s), ext y (snd (fmt.scanBasePrefix s))).
Proof.
  unfold fmt.scanBasePrefix, fmt.accept.
  rewrite peek_ext by reflexivity.
  destruct (fmt.peek "0" s); cbn [negb]; [|reflexivity].
  rewrite consume_ext by reflexivity. cbn [snd].
  set (s1 := snd (fmt.consume "0" true s)).
  rewrite !peek_ext by reflexivity.
  destruct (fmt.peek "bB" s1).
  { rewrite consume_ext by reflexivity. reflexivity. }
  destruct (fmt.peek "oO" s1).
  { rewrite consume_ext by reflexivity. reflexivity. }
  destruct (fmt.peek "xX" s1).
  { rewrite consume_ext by reflexivity. reflexivity. }
  reflexivity.
Qed.

Lemma scanBasePrefix_digits (s : fmt.ss) :
  fmt.indexRune (snd (fst (fst (fmt.scanBasePrefix s)))) 32 = false.
Proof.
  unfold fmt.scanBasePrefix.
  repeat match goal with |- context [if ?c then _ else _] => destruct c end;
    reflexivity.
Qed.

Lemma scanNumber_ext (digits : string) (haveDigits : bool) (y : list rune)
      (s s' : fmt.ss) (tok : list rune) :
  fmt.indexRune digits 32 = false ->
  fmt.scanNumber digits haveDigits s = inl (tok, s') ->
  fmt.scanNumber digits haveDigits (ext y s) = inl (tok, ext y s').
Proof.
  intros H. unfold fmt.scanNumber, fmt.accept.
  destruct haveDigits.
  - intros E. inversion E; subst.
    rewrite accept_loop_ext_state by exact H. reflexivity.
  - rewrite consume_ext by exact H.
    destruct (fmt.input s) as [|r rest] eqn:Ein; [discriminate|].
    assert (Eext : fmt.input (ext y s) = r :: (rest ++ 32 :: y))
      by (unfold ext; cbn [fmt.input]; rewrite Ein; reflexivity).
    rewrite Eext.
    destruct (fmt.consume digits true s) as [ok s1]. cbn [fst snd].
    destruct ok; [|discriminate].
    intros E. inversion E; subst.
    rewrite accept_loop_ext_state by exact H. reflexivity.
Qed.

Lemma scanUint_ext (y : list rune) (s s' : fmt.ss) (v : uint64) :
  fmt.scanUint s = inl (v, s') -> fmt.scanUint (ext y s) = inl (v, ext y s').
Proof.
  unfold fmt.scanUint, fmt.SkipSpace. cbn [fmt.input fmt.buf].
  destruct (fmt.SkipSpace_runes (fmt.input s)) as [|r rest] eqn:Esk; [discriminate|].
  assert (E2 : fmt.SkipSpace_runes (fmt.input (ext y s)) = r :: (rest ++ 32 :: y)).
  { unfold ext. cbn [fmt.input].
    rewrite SkipSpace_runes_app by (rewrite Esk; discriminate).
    rewrite Esk. reflexivity. }
  rewrite E2.
  change {| fmt.input := r :: rest ++ 32 :: y; fmt.buf := [] |}
    with (ext y {| fmt.input := r :: rest; fmt.buf := [] |}).
  rewrite scanBasePrefix_ext.
  pose proof (scanBasePrefix_digits {| fmt.input := r :: rest; fmt.buf := [] |}) as Hd.
  destruct (fmt.scanBasePrefix {| fmt.input := r :: rest; fmt.buf := [] |})
    as [[[base digits] haveDigits] s1].
  cbn [fst snd] in *.
  destruct (fmt.scanNumber digits haveDigits s1) as [[tok s2]|e] eqn:En; [|discriminate].
  rewrite (scanNumber_ext _ _ y _ _ _ Hd En).
  destruct (strconv.ParseUint tok base 64) as [i [e|]]; [discriminate|].
  intros E. inversion E; subst. reflexivity.
Qed.




(** ** Lengths written with canonical decimal numerals *)

Lemma uint_value_ge (d : Decimal.uint) : forall acc, 0 <= acc -> acc <= uint_value d acc.
Proof.
  induction d; intros acc H; cbn [uint_value]; try lia;
    match goal with
    | |- _ <= uint_value _ ?a => specialize (IHd a); lia
    end.
Qed.

Lemma uint_value_of_uint_acc (d : Decimal.uint) :
  forall acc, uint_value d (Z.pos acc) = Z.pos (Pos.of_uint_acc d acc).
Proof.
  induction d; intros acc; cbn [uint_value Pos.of_uint_acc]; try reflexivity;
    rewrite <- IHd; f_equal; lia.
Qed.

Lemma uint_value_of_uint (d : Decimal.uint) : uint_value d 0 = Z.of_N (Pos.of_uint d).
Proof.
  induction d; cbn [uint_value Pos.of_uint]; try reflexivity;
    try (exact IHd);
    match goal with
    | |- uint_value _ ?a = _ => change a with (Z.pos (Z.to_pos a))
    end; rewrite uint_value_of_uint_acc; reflexivity.
Qed.

Lemma uint_value_to_uint (p : positive) : uint_value (Pos.to_uint p) 0 = Z.pos p.
Proof. rewrite uint_value_of_uint, DecimalPos.Unsigned.of_to. reflexivity. Qed.

Lemma digits_loop_digit (k c : Z) (rest : list byte) (acc : Z) (u : bool) :
  0 <= k <= 9 -> c = 48 + k -> 0 <= acc -> 10 * acc + k < 2 ^ 64 ->
  strconv.digits_loop 10 true (maxUint64 / 10 + 1) maxUint64 (c :: rest) acc u
  = strconv.digits_loop 10 true (maxUint64 / 10 + 1) maxUint64 rest (10 * acc + k) u.
Proof.
  intros Hk -> Hacc Hv.
  change (2 ^ 64) with 18446744073709551616 in Hv.
  cbn [strconv.digits_loop].
  change (strconv.ch "_") with 95. change (strconv.ch "0") with 48.
  change (strconv.ch "9") with 57.
  change (maxUint64 / 10 + 1) with 1844674407370955162.
  change maxUint64 with 18446744073709551615.
  destruct (Z.eqb_spec (48 + k) 95) as [E|_]; [lia|]. cbn [andb].
  destruct (Z.leb_spec 48 (48 + k)) as [_|E]; [|lia].
  destruct (Z.leb_spec (48 + k) 57) as [_|E]; [|lia]. cbn [andb].
  replace (48 + k - 48) with k by lia.
  destruct (Z.leb_spec 10 k) as [E|_]; [lia|].
  destruct (Z.leb_spec 1844674407370955162 acc) as [E|_]; [lia|].
  unfold u64_mul, u64_add.
  rewrite (wrap64_small (acc * 10)) by (change (2 ^ 64) with 18446744073709551616; lia).
  rewrite (wrap64_small (acc * 10 + k)) by (change (2 ^ 64) with 18446744073709551616; lia).
  destruct (Z.ltb_spec (acc * 10 + k) (acc * 10)) as [E|_]; [lia|].
  destruct (Z.ltb_spec 18446744073709551615 (acc * 10 + k)) as [E|_]; [lia|].
  cbn [orb]. replace (acc * 10 + k) with (10 * acc + k) by lia. reflexivity.
Qed.

(** The digit loop of [ParseUint] in base 10 computes the value of the
    numeral as long as it fits 64 bits. *)
Lemma digits_loop_numeral (d : Decimal.uint) :
  forall acc u,
    0 <= acc -> uint_value d acc < 2 ^ 64 ->
    strconv.digits_loop 10 true (maxUint64 / 10 + 1) maxUint64 (numeral d) acc u
    = inl (uint_value d acc, u).
Proof.
  induction d; intros acc u Hacc Hv; cbn [uint_value] in *; [reflexivity|..];
    match type of Hv with
    | uint_value _ (10 * acc + ?k) < _ =>
        pose proof (uint_value_ge d (10 * acc + k) ltac:(lia)) as Hge;
        rewrite <- (IHd (10 * acc + k) u ltac:(lia) Hv);
        apply (digits_loop_digit k); [lia | reflexivity | exact Hacc | lia]
    | uint_value _ (10 * acc) < _ =>
        pose proof (uint_value_ge d (10 * acc) ltac:(lia)) as Hge;
        rewrite <- (IHd (10 * acc) u ltac:(lia) Hv);
        replace (10 * acc) with (10 * acc + 0) by lia;
        apply (digits_loop_digit 0); [lia | reflexivity | exact Hacc | lia]
    end.
Qed.

Lemma numeral_digits (d : Decimal.uint) : Forall (fun c => 48 <= c <= 57) (numeral d).
Proof.
  unfold numeral.
  induction d; cbn [NilEmpty.string_of_uint bytes_of list_ascii_of_string map];
    constructor; try exact IHd; vm_compute; split; discriminate.
Qed.

Lemma to_uint_canonical (p : positive) :
  exists c cs, numeral (Pos.to_uint p) = c :: cs /\ 49 <= c <= 57.
Proof.
  pose proof (DecimalPos.Unsigned.to_of (Pos.to_uint p)) as N.
  rewrite DecimalPos.Unsigned.of_to in N. cbn [N.to_uint] in N.
  pose proof (DecimalPos.Unsigned.to_uint_nonzero p) as NZ.
  unfold numeral.
  destruct (Pos.to_uint p) as [|l|l|l|l|l|l|l|l|l|l] eqn:E;
    cbn [NilEmpty.string_of_uint bytes_of list_ascii_of_string map].
  - discriminate N.
  - exfalso. unfold Decimal.unorm in N. cbn [Decimal.nzhead] in N.
    destruct (Decimal.nzhead l) eqn:H;
      try (apply (nzhead_nonzero l l); rewrite H; inversion N; subst; reflexivity);
      try (inversion N; fail).
    inversion N; subst. apply NZ. reflexivity.
  - eexists _, _. split; [reflexivity | vm_compute; split; discriminate].
  - eexists _, _. split; [reflexivity | vm_compute; split; discriminate].
  - eexists _, _. split; [reflexivity | vm_compute; split; discriminate].
  - eexists _, _. split; [reflexivity | vm_compute; split; discriminate].
  - eexists _, _. split; [reflexivity | vm_compute; split; discriminate].
  - eexists _, _. split; [reflexivity | vm_compute; split; discriminate].
  - eexists _, _. split; [reflexivity | vm_compute; split; discriminate].
  - eexists _, _. split; [reflexivity | vm_compute; split; discriminate].
  - eexists _, _. split; [reflexivity | vm_compute; split; discriminate].
Qed.

Lemma ParseUint_numeral (p : positive) :
  Z.pos p < 2 ^ 64 ->
  strconv.ParseUint (numeral (Pos.to_uint p)) 0 64 = (Z.pos p, None).
Proof.
  intros Hp. destruct (to_uint_canonical p) as (c & cs & E & Hc).
  pose proof (digits_loop_numeral (Pos.to_uint p) 0 false ltac:(lia)) as L.
  rewrite uint_value_to_uint in L. specialize (L Hp).
  rewrite E in *. unfold strconv.ParseUint.
  change (0 =? 0) with true. cbn [andb Z.leb Z.compare].
  change (strconv.ch "0") with 48.
  destruct (Z.eqb_spec c 48) as [E0|_]; [lia|].
  cbv beta iota.
  change ((64 <? 0) || (64 <? 64)) with false. cbv beta iota.
  change (64 =? 0) with false. cbv beta iota.
  change (wrap64 (wrap64 (Z.shiftl 1 64) - 1)) with maxUint64.
  rewrite L. reflexivity.
Qed.

Ltac by_digit c :=
  let H := fresh in
  assert (H : c = 48 \/ c = 49 \/ c = 50 \/ c = 51 \/ c = 52 \/ c = 53 \/ c = 54
              \/ c = 55 \/ c = 56 \/ c = 57) by lia;
  repeat (destruct H as [H|H]; [subst c; try reflexivity; try lia|]);
  subst c; try reflexivity; try lia.

Lemma isSpace_digit (c : Z) : 48 <= c <= 57 -> fmt.isSpace c = false.
Proof. intros H. by_digit c. Qed.

Lemma indexRune_zero_digit (c : Z) : 49 <= c <= 57 -> fmt.indexRune "0" c = false.
Proof. intros H. by_digit c. Qed.

Lemma indexRune_decimal_digit (c : Z) :
  48 <= c <= 57 -> fmt.indexRune (String.append fmt.decimalDigits "_") c = true.
Proof. intros H. by_digit c. Qed.

Lemma accept_loop_all (digits : string) (cs : list rune) :
  Forall (fun c => fmt.indexRune digits c = true) cs ->
  forall tok, fmt.accept_loop digits cs tok = {| fmt.input := []; fmt.buf := tok ++ cs |}.
Proof.
  induction 1 as [|c cs Hc _ IH]; intros tok; cbn [fmt.accept_loop].
  - rewrite List.app_nil_r. reflexivity.
  - rewrite Hc, IH, <- List.app_assoc. reflexivity.
Qed.

Lemma decode_ascii (l : list byte) : Forall (fun c => c < 0x80) l -> utf8.decode l = l.
Proof.
  induction 1 as [|c l Hc _ IH]; cbn [utf8.decode]; [reflexivity|].
  unfold utf8.RuneSelf. destruct (Z.ltb_spec c 128); [rewrite IH; reflexivity | lia].
Qed.

(** A canonical numeral scans to its value and is consumed whole. *)
Lemma scanUint_numeral (p : positive) (b : list rune) :
  Z.pos p < 2 ^ 64 ->
  fmt.scanUint {| fmt.input := numeral (Pos.to_uint p); fmt.buf := b |}
  = inl (Z.pos p, {| fmt.input := []; fmt.buf := numeral (Pos.to_uint p) |}).
Proof.
  intros Hp. pose proof (ParseUint_numeral p Hp) as PU.
  pose proof (numeral_digits (Pos.to_uint p)) as D.
  destruct (to_uint_canonical p) as (c & cs & E & Hc).
  rewrite E in *. inversion D as [|? ? _ Dcs]; subst.
  unfold fmt.scanUint, fmt.SkipSpace. cbn [fmt.input fmt.buf].
  rewrite SkipSpace_runes_cons, isSpace_digit by lia.
  unfold fmt.scanBasePrefix, fmt.peek. cbn [fmt.input].
  rewrite indexRune_zero_digit by lia. cbn [negb].
  unfold fmt.scanNumber, fmt.accept, fmt.consume. cbn [fmt.input fmt.buf].
  rewrite indexRune_decimal_digit by lia. cbn [app fmt.input fmt.buf].
  rewrite accept_loop_all.
  2:{ eapply Forall_impl; [|exact Dcs]. intros x Hx. apply indexRune_decimal_digit, Hx. }
  cbn [fmt.buf app]. unfold rune, byte in *. rewrite PU. reflexivity.
Qed.

Lemma scanUint_itoa (n : Z) (b : list rune) :
  0 <= n < 2 ^ 64 ->
  fmt.scanUint {| fmt.input := bytes_of (itoa n); fmt.buf := b |}
  = inl (n, {| fmt.input := []; fmt.buf := bytes_of (itoa n) |}).
Proof.
  intros [H0 H1]. destruct n as [|p|p]; [reflexivity| |lia].
  assert (E : bytes_of (itoa (Z.pos p)) = numeral (Pos.to_uint p)).
  { unfold itoa, numeral. cbn [Z.to_int NilZero.string_of_int NilZero.string_of_uint].
    destruct (Pos.to_uint p) eqn:Ep; try reflexivity.
    exfalso. exact (DecimalPos.Unsigned.to_uint_nonnil p Ep). }
  rewrite E. apply scanUint_numeral. exact H1.
Qed.

Lemma itoa_digits (n : Z) : 0 <= n -> Forall (fun c => 48 <= c <= 57) (bytes_of (itoa n)).
Proof.
  intros H. destruct n as [|p|p]; [repeat constructor; discriminate| |lia].
  unfold itoa. cbn [Z.to_int NilZero.string_of_int NilZero.string_of_uint].
  pose proof (numeral_digits (Pos.to_uint p)) as D. unfold numeral in D.
  destruct (Pos.to_uint p) eqn:Ep; try exact D.
  exfalso. exact (DecimalPos.Unsigned.to_uint_nonnil p Ep).
Qed.

Lemma scanUint_space (rs b b' : list rune) :
  fmt.scanUint {| fmt.input := 32 :: rs; fmt.buf := b |}
  = fmt.scanUint {| fmt.input := rs; fmt.buf := b' |}.
Proof.
  unfold fmt.scanUint, fmt.SkipSpace. cbn [fmt.input fmt.buf].
  rewrite SkipSpace_runes_cons. reflexivity.
Qed.

Lemma runes_of_app_space (a b : string) :
  runes_of (a ++ String " " b) = runes_of a ++ 32 :: runes_of b.
Proof.
  unfold runes_of. rewrite bytes_of_app.
  change (bytes_of (String " " b)) with (32 :: bytes_of b).
  apply decode_app_ascii. lia.
Qed.

Lemma runes_of_itoa (n : Z) : 0 <= n -> runes_of (itoa n) = bytes_of (itoa n).
Proof.
  intros H. unfold runes_of. apply decode_ascii.
  eapply Forall_impl; [|apply itoa_digits, H]. cbv beta. intros c Hc. lia.
Qed.

Lemma Replace_all_digits (x : string) :
  Forall (fun c => 48 <= c <= 57) (bytes_of x) -> strings_Replace_all x ":" " " = x.
Proof.
  induction x as [|c x IH]; intros H; cbn [strings_Replace_all]; [reflexivity|].
  unfold bytes_of in H. cbn [list_ascii_of_string map] in H.
  inversion H as [|? ? Hc Hx]; subst.
  rewrite (IH Hx).
  destruct (Ascii.eqb_spec c ":") as [->|_]; [|reflexivity].
  exfalso. vm_compute in Hc. destruct Hc as [_ Hc]. apply Hc. reflexivity.
Qed.

Lemma Sscan3_decimal (h m s a b c : Z) :
  0 <= h < 2 ^ 64 -> 0 <= m < 2 ^ 64 -> 0 <= s < 2 ^ 64 ->
  fmt.Sscan3 (itoa h ++ String " " (itoa m ++ String " " (itoa s))) a b c
  = ((h, m, s), 3, None).
Proof.
  intros Hh Hm Hs. unfold fmt.Sscan3.
  rewrite !runes_of_app_space, !runes_of_itoa by lia.
  set (Bm := bytes_of (itoa m)). set (Bs := bytes_of (itoa s)).
  change {| fmt.input := bytes_of (itoa h) ++ 32 :: Bm ++ 32 :: Bs; fmt.buf := [] |}
    with (ext (Bm ++ 32 :: Bs) {| fmt.input := bytes_of (itoa h); fmt.buf := [] |}).
  rewrite (scanUint_ext _ _ _ _ (scanUint_itoa h [] Hh)).
  unfold ext at 1. cbn [fmt.input fmt.buf app].
  rewrite (scanUint_space _ _ []).
  change {| fmt.input := Bm ++ 32 :: Bs; fmt.buf := [] |}
    with (ext Bs {| fmt.input := Bm; fmt.buf := [] |}).
  rewrite (scanUint_ext _ _ _ _ (scanUint_itoa m [] Hm)).
  unfold ext at 1. cbn [fmt.input fmt.buf app].
  rewrite (scanUint_space _ _ []).
  unfold Bs. rewrite (scanUint_itoa s [] Hs). reflexivity.
Qed.

(** X1.  When hours, minutes and seconds are written as decimal numerals
    without leading zeros (as [%d] prints them) and each fits 64 bits,
    [LengthSec] succeeds and returns [h*3600 + m*60 + s] reduced modulo
    2^64. *)
Theorem LengthSec_decimal (h m s : Z) :
  0 <= h < 2 ^ 64 -> 0 <= m < 2 ^ 64 -> 0 <= s < 2 ^ 64 ->
  LengthSec (track_of_length (itoa h ++ String ":" (itoa m ++ String ":" (itoa s))))
  = ((h * 3600 + m * 60 + s) mod 2 ^ 64, None).
Proof.
  intros Hh Hm Hs. unfold LengthSec, track_of_length. cbn [Length].
  rewrite Replace_all_app. cbn [strings_Replace_all].
  change (Ascii.eqb ":" ":") with true. cbv iota.
  rewrite Replace_all_app. cbn [strings_Replace_all].
  change (Ascii.eqb ":" ":") with true. cbv iota.
  rewrite !Replace_all_digits by (apply itoa_digits; lia).
  rewrite (Sscan3_decimal h m s 0 0 0 Hh Hm Hs).
  f_equal. unfold u64_add, u64_mul, wrap64.
  rewrite (Zmult_mod_idemp_l (h * 60) 60).
  rewrite <- Zplus_mod.
  rewrite Zplus_mod_idemp_l.
  f_equal. lia.
Qed.

(* ================================================================== *)
(** * Properties of the accessors of tracks.go and user.go *)

Section ClientProperties.

Context {transport_error json_error Remote ShowMeta : Type}.
Variable roundTrip :
  Remote -> string -> list string ->
  (option RawMessage * option transport_error) * Remote.
Context {dec_string : Unmarshaler json_error string}.
Context {dec_Track : Unmarshaler json_error Track}.
Context {dec_Album : Unmarshaler json_error Album}.
Context {dec_Photo : Unmarshaler json_error Photo}.
Context {dec_Officerships : Unmarshaler json_error (list Officership)}.

(** One call of [apiRequest] is one call of the transport, logged. *)
Lemma apiRequest_step (endpoint : string) (mixins : list string) (s : Session) :
  snd (apiRequest (json_error := json_error) roundTrip endpoint mixins s)
  = {| remote := snd (roundTrip (remote s) endpoint mixins);
       requests := requests s ++ [endpoint] |}
  /\ fst (apiRequest (json_error := json_error) roundTrip endpoint mixins s)
     = (fst (fst (roundTrip (remote s) endpoint mixins)),
        option_map TransportError (snd (fst (roundTrip (remote s) endpoint mixins)))).
Proof.
  unfold apiRequest. destruct (roundTrip (remote s) endpoint mixins) as [[data err] r].
  split; reflexivity.
Qed.

Ltac call_transport :=
  unfold apiRequest;
  match goal with
  | |- context [roundTrip ?r ?e ?m] =>
      destruct (roundTrip r e m) as [[payload terr] rem'] eqn:RT
  end;
  cbn [fst snd option_map] in *.

(** C9.  [GetTrack], [GetTrackTitle] and [GetTrackAlbum] each call the
    transport exactly once, for [/track/{id}], [/track/{id}/title] and
    [/track/{id}/album]: whatever the outcome, the log of requests grows
    by that one endpoint and the remote end is the one left by that one
    call.  When the payload is there and the decoder rejects it with [e],
    each returns its zero result together with [e] itself. *)
Theorem track_accessors_one_request (trackid : uint64) (s : Session) :
  let track := Sprintf_d "/track/" trackid "" in
  let title := Sprintf_d "/track/" trackid "/title" in
  let album := Sprintf_d "/track/" trackid "/album" in
  (snd (GetTrack roundTrip trackid s)
   = {| remote := snd (roundTrip (remote s) track []); requests := requests s ++ [track] |}
   /\ snd (GetTrackTitle roundTrip trackid s)
      = {| remote := snd (roundTrip (remote s) title []); requests := requests s ++ [title] |}
   /\ snd (GetTrackAlbum roundTrip trackid s)
      = {| remote := snd (roundTrip (remote s) album []); requests := requests s ++ [album] |})
  /\ (forall data v e,
        fst (roundTrip (remote s) track []) = (Some data, None) ->
        Unmarshal data Track_zero = (v, Some e) ->
        fst (GetTrack roundTrip trackid s) = Returns (None, Some (UnmarshalError e)))
  /\ (forall data v e,
        fst (roundTrip (remote s) title []) = (Some data, None) ->
        Unmarshal data ""%string = (v, Some e) ->
        fst (GetTrackTitle roundTrip trackid s) = Returns (""%string, Some (UnmarshalError e)))
  /\ (forall data v e,
        fst (roundTrip (remote s) album []) = (Some data, None) ->
        Unmarshal data Album_zero = (v, Some e) ->
        fst (GetTrackAlbum roundTrip trackid s) = Returns (None, Some (UnmarshalError e))).
Proof.
  intros track title album. subst track title album.
  split; [split; [|split]|split; [|split]].
  - unfold GetTrack. call_transport.
    destruct terr; [reflexivity|]. destruct payload as [d|]; [|reflexivity].
    unfold json_Unmarshal. destruct (Unmarshal d Track_zero) as [v [e|]]; reflexivity.
  - unfold GetTrackTitle. call_transport.
    destruct terr; [reflexivity|]. destruct payload as [d|]; [|reflexivity].
    unfold json_Unmarshal. destruct (Unmarshal d ""%string) as [v [e|]]; reflexivity.
  - unfold GetTrackAlbum. call_transport.
    destruct terr; [reflexivity|]. destruct payload as [d|]; [|reflexivity].
    unfold json_Unmarshal. destruct (Unmarshal d Album_zero) as [v [e|]]; reflexivity.
  - intros d v e H U. unfold GetTrack. call_transport. inversion H; subst.
    unfold json_Unmarshal. rewrite U. reflexivity.
  - intros d v e H U. unfold GetTrackTitle. call_transport. inversion H; subst.
    unfold json_Unmarshal. rewrite U. reflexivity.
  - intros d v e H U. unfold GetTrackAlbum. call_transport. inversion H; subst.
    unfold json_Unmarshal. rewrite U. reflexivity.
Qed.

(** C2.  [GetUserBio] returns the error made by [errors.New("No bio set")]
    exactly when the transport returned no error and a nil payload; when
    the payload is the JSON text of the empty string, which the decoder
    turns into the empty string, it returns the empty string and no error. *)
Theorem GetUserBio_no_bio_set (id : Z) (s : Session) :
  let bio_path := Sprintf_d "/user/" id "/bio/" in
  ((exists bio, fst (GetUserBio roundTrip id s)
                = Returns (bio, Some (errors_New "No bio set")))
   <-> fst (roundTrip (remote s) bio_path []) = (None, None))
  /\ (fst (roundTrip (remote s) bio_path []) = (Some json_empty_string, None) ->
      Unmarshal json_empty_string ""%string = (""%string, @None json_error) ->
      fst (GetUserBio roundTrip id s) = Returns (""%string, None)).
Proof.
  intros bio_path. subst bio_path. split; [split|].
  - intros [bio H]. unfold GetUserBio in H. revert H. call_transport.
    destruct terr as [e|]; [intros H; inversion H|].
    destruct payload as [d|]; [|reflexivity].
    unfold json_Unmarshal. destruct (Unmarshal d ""%string) as [v [e|]]; intros H; inversion H.
  - intros H. exists ""%string. unfold GetUserBio. call_transport.
    inversion H; subst. reflexivity.
  - intros H U. unfold GetUserBio. call_transport. inversion H; subst.
    unfold json_Unmarshal. rewrite U. reflexivity.
Qed.

(** C5.  When the transport returns no error and a nil payload,
    [GetUserName] dereferences the nil pointer: the call panics and
    returns nothing, neither a name nor a decode error. *)
Theorem GetUserName_nil_payload_panics (id : Z) (s : Session) :
  fst (roundTrip (remote s) (Sprintf_d "/user/" id "/name/") []) = (None, None) ->
  fst (GetUserName (json_error := json_error) roundTrip id s) = Panics nil_dereference.
Proof.
  intros H. unfold GetUserName. call_transport. inversion H; subst. reflexivity.
Qed.

(** C6.  [GetUserProfilePhoto] returns the error made by
    [errors.New("No profile picture set")] when the transport returned no
    error and a nil payload.  When the payload decodes to [p], the photo
    returned is [p] with [DateAdded] set to what [time.Parse] makes of
    [DateAddedRaw] under the layout day/month/year hour:minute; the error
    returned is the error of that parse, if any.  In particular the raw
    date ["15/06/2021 13:45"] gives 2021-06-15 13:45 and no error. *)
Theorem GetUserProfilePhoto_spec (id : Z) (s : Session) :
  let photo_path := Sprintf_d "/user/" id "/profilephoto/" in
  (fst (roundTrip (remote s) photo_path []) = (None, None) ->
   fst (GetUserProfilePhoto roundTrip id s)
   = Returns (Photo_zero, Some (errors_New "No profile picture set")))
  /\ (forall data p,
        fst (roundTrip (remote s) photo_path []) = (Some data, None) ->
        Unmarshal data Photo_zero = (p, @None json_error) ->
        exists photo err,
          fst (GetUserProfilePhoto roundTrip id s) = Returns (photo, err)
          /\ photo = set_DateAdded p (Photo_DateAdded photo)
          /\ Photo_DateAdded photo = fst (time.Parse time.layout_dmy_hm (DateAddedRaw p))
          /\ err = option_map TimeParseError
                              (snd (time.Parse time.layout_dmy_hm (DateAddedRaw p)))
          /\ (DateAddedRaw p = "15/06/2021 13:45"%string ->
              Photo_DateAdded photo
              = {| time.year := 2021; time.month := 6; time.day := 15;
                   time.hour := 13; time.minute := 45 |}
              /\ err = None)).
Proof.
  intros photo_path. subst photo_path. split.
  - intros H. unfold GetUserProfilePhoto. call_transport. inversion H; subst. reflexivity.
  - intros d p H U. unfold GetUserProfilePhoto. call_transport. inversion H; subst.
    unfold json_Unmarshal, time_Parse. rewrite U. cbn [option_map].
    destruct (time.Parse time.layout_dmy_hm (DateAddedRaw p)) as [t perr] eqn:P.
    exists (set_DateAdded p t), (option_map TimeParseError perr).
    split; [reflexivity|]. split; [reflexivity|]. split; [reflexivity|].
    split; [reflexivity|].
    intros Raw. rewrite Raw in P. vm_compute in P. inversion P; subst. split; reflexivity.
Qed.

(** *** The loop of [GetUserOfficerships] *)

Local Abbreviation norm := (@normalise transport_error json_error).
Local Abbreviation norm_all := (@normalise_all transport_error json_error).
Local Abbreviation loop_body := (@officership_body transport_error json_error).
Local Abbreviation range_loop := (@officerships_range transport_error json_error).

Lemma is_empty_true (x : string) : is_empty x = true <-> x = ""%string.
Proof. destruct x; simpl; split; intros H; try reflexivity; discriminate. Qed.

Lemma is_empty_false (x : string) : is_empty x = false <-> x <> ""%string.
Proof.
  destruct x; simpl; split; intros H; try discriminate; try reflexivity.
  exfalso. apply H. reflexivity.
Qed.

Lemma Parse_error_zero (l : time.layout) (x : string) (e : time.ParseError) :
  snd (time.Parse l x) = Some e -> fst (time.Parse l x) = time.zero.
Proof.
  unfold time.Parse.
  destruct (time.parse_chunks _ _ _) as [f|[rest p]]; [|reflexivity].
  destruct (_ || _); [reflexivity | discriminate].
Qed.

Lemma update_middle {A : Type} (pre post : list A) (v x : A) :
  update (List.length pre) x (pre ++ v :: post) = pre ++ x :: post.
Proof. induction pre as [|y pre IH]; simpl; [reflexivity | rewrite IH; reflexivity]. Qed.

Lemma officership_body_middle (pre post : list Officership) (v : Officership) :
  loop_body
                   (List.length pre) v (pre ++ v :: post)
  = (pre ++ fst (norm v) :: post, snd (norm v)).
Proof.
  unfold officership_body, norm.
  rewrite nth_middle.
  destruct (is_empty (FromDateRaw v)); cbn [negb].
  - rewrite nth_middle.
    destruct (is_empty (TillDateRaw v)); cbn [negb]; [reflexivity|].
    destruct (time_Parse time.layout_ymd (FromDateRaw v)) as [t err].
    rewrite update_middle. destruct err; reflexivity.
  - destruct (time_Parse time.layout_ymd (FromDateRaw v)) as [t err].
    rewrite update_middle.
    destruct err as [e|]; [reflexivity|].
    rewrite nth_middle. cbn [set_FromDate TillDateRaw].
    destruct (is_empty (TillDateRaw v)); cbn [negb]; [reflexivity|].
    rewrite update_middle. reflexivity.
Qed.

Lemma officerships_range_middle (post : list Officership) :
  forall pre : list Officership,
    range_loop
                       (List.length post) (List.length pre) (pre ++ post)
    = (pre ++ fst (norm_all post), snd (norm_all post)).
Proof.
  induction post as [|v post IH]; intros pre.
  - reflexivity.
  - cbn [List.length officerships_range normalise_all].
    rewrite nth_middle, officership_body_middle.
    destruct (norm v) as [v' [e|]]; cbn [fst snd]; [reflexivity|].
    specialize (IH (pre ++ [v'])).
    rewrite <- app_assoc, length_app in IH. cbn [app List.length] in IH.
    rewrite Nat.add_1_r in IH. rewrite IH.
    destruct (norm_all post) as [rest' err]. cbn [fst snd].
    rewrite <- app_assoc. reflexivity.
Qed.

Lemma officerships_range_all (os : list Officership) :
  range_loop
                     (List.length os) 0 os
  = norm_all os.
Proof.
  pose proof (officerships_range_middle os []) as H. cbn [app List.length] in H.
  rewrite H. destruct (norm_all os); reflexivity.
Qed.

Lemma normalise_same_raw (v : Officership) :
  same_raw v (fst (norm v)).
Proof.
  unfold normalise, same_raw.
  destruct (is_empty (FromDateRaw v)); cbn [negb].
  - destruct (is_empty (TillDateRaw v)); cbn [negb]; [repeat split|].
    destruct (time_Parse _ _) as [t err]. repeat split.
  - destruct (time_Parse _ _) as [t [e|]]; [repeat split|].
    cbn [set_FromDate TillDateRaw].
    destruct (is_empty (TillDateRaw v)); repeat split.
Qed.

Lemma normalise_ok (v : Officership) :
  snd (norm v) = None ->
  carries_parsed_dates v (fst (norm v)).
Proof.
  unfold normalise, carries_parsed_dates, time_Parse.
  destruct (is_empty (FromDateRaw v)) eqn:EF;
    [apply is_empty_true in EF | apply is_empty_false in EF];
    (destruct (is_empty (TillDateRaw v)) eqn:ET;
     [pose proof (proj1 (is_empty_true _) ET) as ET'
     | pose proof (proj1 (is_empty_false _) ET) as ET']);
    destruct (time.Parse time.layout_ymd (FromDateRaw v)) as [t [pe|]];
    cbn [negb option_map set_FromDate TillDateRaw]; try rewrite ET;
    cbn [negb option_map fst snd set_FromDate set_TillDate FromDate TillDate];
    intros H; try discriminate;
    repeat split; intros; try reflexivity; try contradiction.
Qed.

Lemma normalise_failure (v : Officership) (e : error) :
  snd (norm v) = Some e ->
  (exists pe, e = TimeParseError pe
              /\ snd (time.Parse time.layout_ymd (FromDateRaw v)) = Some pe)
  /\ (dates_zero v -> dates_zero (fst (norm v))).
Proof.
  unfold normalise, dates_zero, time_Parse.
  pose proof (Parse_error_zero time.layout_ymd (FromDateRaw v)) as Z0.
  destruct (is_empty (FromDateRaw v)); cbn [negb];
    destruct (is_empty (TillDateRaw v)) eqn:ET;
    destruct (time.Parse time.layout_ymd (FromDateRaw v)) as [t [pe|]];
    cbn [negb option_map set_FromDate TillDateRaw]; try rewrite ET;
    cbn [negb option_map fst snd set_FromDate set_TillDate FromDate TillDate] in *;
    intros H; try discriminate;
    inversion H; subst;
    (split; [exists pe; split; reflexivity|]);
    intros [HF HT]; rewrite (Z0 pe eq_refl); split; cbn; auto.
Qed.

Lemma normalise_failure_dates (v : Officership) (e : error) :
  snd (norm v) = Some e -> failed_dates v (fst (norm v)).
Proof.
  unfold normalise, failed_dates, time_Parse.
  pose proof (Parse_error_zero time.layout_ymd (FromDateRaw v)) as Z0.
  destruct (is_empty (FromDateRaw v)) eqn:EF;
    [pose proof (proj1 (is_empty_true _) EF) as EF'
    | pose proof (proj1 (is_empty_false _) EF) as EF'];
    cbn [negb];
    destruct (is_empty (TillDateRaw v)) eqn:ET;
    destruct (time.Parse time.layout_ymd (FromDateRaw v)) as [t [pe|]];
    cbn [negb option_map set_FromDate TillDateRaw]; try rewrite ET;
    cbn [negb option_map fst snd set_FromDate set_TillDate FromDate TillDate] in *;
    intros H; try discriminate;
    (split; intros C; try contradiction);
    rewrite (Z0 pe eq_refl); split; reflexivity.
Qed.

Lemma normalise_all_failure (os res : list Officership) (e : error) :
  norm_all os
  = (res, Some e) ->
  exists pre v post,
    os = pre ++ v :: post
    /\ res = map (fun x => fst (norm x)) pre ++ fst (norm v) :: post
    /\ snd (norm v) = Some e
    /\ Forall (fun x => snd (norm x) = None) pre.
Proof.
  revert res. induction os as [|v os IH]; intros res H.
  - discriminate.
  - cbn [normalise_all] in H.
    destruct (norm v) as [v' [e'|]] eqn:N.
    + inversion H; subst. exists [], v, os. rewrite N. repeat split. constructor.
    + destruct (norm_all os) as [rest' err] eqn:A. inversion H; subst.
      destruct (IH rest' eq_refl) as (pre & w & post & -> & -> & Hw & Hpre).
      exists (v :: pre), w, post. cbn [map app]. rewrite N. cbn [fst].
      repeat split; [exact Hw|]. constructor; [rewrite N; reflexivity | exact Hpre].
Qed.

Lemma normalise_all_success (os res : list Officership) :
  norm_all os = (res, None) ->
  res = map (fun x => fst (norm x)) os /\ Forall (fun x => snd (norm x) = None) os.
Proof.
  revert res. induction os as [|v os IH]; intros res H.
  - inversion H. split; [reflexivity | constructor].
  - cbn [normalise_all] in H.
    destruct (norm v) as [v' [e'|]] eqn:N; [discriminate|].
    destruct (norm_all os) as [rest' err] eqn:A. inversion H; subst.
    destruct (IH rest' eq_refl) as [-> HF]. cbn [map]. rewrite N.
    split; [reflexivity|]. constructor; [rewrite N; reflexivity | exact HF].
Qed.

Lemma GetUserOfficerships_decoded (id : Z) (s : Session) (data : RawMessage)
      (decoded : list Officership) :
  fst (roundTrip (remote s) (Sprintf_d "/user/" id "/officerships/") []) = (Some data, None) ->
  Unmarshal data [] = (decoded, @None json_error) ->
  fst (GetUserOfficerships roundTrip id s) = Returns (norm_all decoded).
Proof.
  intros H U. unfold GetUserOfficerships. call_transport. inversion H; subst.
  unfold json_Unmarshal. rewrite U. cbn [option_map].
  rewrite officerships_range_all. reflexivity.
Qed.

(** X15.  When the call succeeds, every entry comes back with its wire
    fields as decoded and with the dates the loop derives: each date is
    the parse of the raw from date when its own raw string is not empty,
    and is left as decoded otherwise. *)
Lemma GetUserOfficerships_success (id : Z) (s : Session) (data : RawMessage)
      (decoded result : list Officership) :
  fst (roundTrip (remote s) (Sprintf_d "/user/" id "/officerships/") []) = (Some data, None) ->
  Unmarshal data [] = (decoded, @None json_error) ->
  fst (GetUserOfficerships roundTrip id s) = Returns (result, None) ->
  Forall2 (fun o o' => same_raw o o' /\ carries_parsed_dates o o') decoded result.
Proof.
  intros H U R. rewrite (GetUserOfficerships_decoded _ _ _ _ H U) in R.
  inversion R as [R']. destruct (normalise_all_success _ _ R') as [-> HF].
  clear R R' U H. induction decoded as [|o os IH]; cbn [map]; constructor.
  - inversion HF; subst. split; [apply normalise_same_raw | apply normalise_ok; assumption].
  - apply IH. inversion HF; assumption.
Qed.

(** An entry with a till date and no from date makes the call fail: the
    till date is parsed from the empty raw from date. *)
Lemma GetUserOfficerships_till_without_from
      (id : Z) (s : Session) (data : RawMessage) (o : Officership) :
  fst (roundTrip (remote s) (Sprintf_d "/user/" id "/officerships/") []) = (Some data, None) ->
  Unmarshal data [] = ([o], @None json_error) ->
  FromDateRaw o = ""%string ->
  TillDateRaw o = "2021-06-30"%string ->
  exists pe,
    fst (GetUserOfficerships roundTrip id s)
    = Returns ([set_TillDate o time.zero], Some (TimeParseError pe)).
Proof.
  intros H U HF HT. rewrite (GetUserOfficerships_decoded _ _ _ _ H U).
  cbn [normalise_all]. unfold normalise, time_Parse.
  rewrite HF. cbn [is_empty negb]. rewrite HT. cbn [is_empty negb].
  eexists. vm_compute. reflexivity.
Qed.

(** C1.  The till date is parsed from the raw from date.  An entry decoded
    with [from_date] ["2020-01-01"] and [till_date] ["2021-06-30"] comes
    back with both derived dates equal to 2020-01-01, while the parse of
    its raw till date is 2021-06-30. *)
Theorem GetUserOfficerships_till_date_reads_from_date
        (id : Z) (s : Session) (data : RawMessage) (o : Officership) :
  let jan1 := {| time.year := 2020; time.month := 1; time.day := 1;
                 time.hour := 0; time.minute := 0 |} in
  let jun30 := {| time.year := 2021; time.month := 6; time.day := 30;
                  time.hour := 0; time.minute := 0 |} in
  fst (roundTrip (remote s) (Sprintf_d "/user/" id "/officerships/") []) = (Some data, None) ->
  Unmarshal data [] = ([o], @None json_error) ->
  FromDateRaw o = "2020-01-01"%string ->
  TillDateRaw o = "2021-06-30"%string ->
  fst (GetUserOfficerships roundTrip id s)
  = Returns ([set_TillDate (set_FromDate o jan1) jan1], None)
  /\ time.Parse time.layout_ymd (TillDateRaw o) = (jun30, None)
  /\ jan1 <> jun30.
Proof.
  intros jan1 jun30 H U HF HT.
  rewrite (GetUserOfficerships_decoded _ _ _ _ H U).
  split; [|split].
  - cbn [normalise_all]. unfold normalise, time_Parse.
    rewrite HF. cbn [is_empty negb].
    change (time.Parse time.layout_ymd "2020-01-01") with (jan1, @None time.ParseError).
    cbn [option_map set_FromDate TillDateRaw]. rewrite HT. cbn [is_empty negb].
    reflexivity.
  - rewrite HT. vm_compute. reflexivity.
  - discriminate.
Qed.

(** C10, amended.  Suppose the transport and the decoder succeed and
    [GetUserOfficerships] returns an error.  Then the error is the error
    of [time.Parse] on some entry [k], and it comes with the whole decoded
    slice: every entry still has the fields it was decoded with, the
    entries before [k] carry the dates derived for them, entry [k] has the
    date whose parse failed at the zero time and its other date as
    decoded, and the entries after [k] are as decoded.  So entry [k] and
    the entries after it have zero derived dates whenever the decoder
    left them zero. *)
Theorem GetUserOfficerships_parse_failure
        (id : Z) (s : Session) (data : RawMessage)
        (decoded result : list Officership) (e : error) :
  fst (roundTrip (remote s) (Sprintf_d "/user/" id "/officerships/") []) = (Some data, None) ->
  Unmarshal data [] = (decoded, @None json_error) ->
  fst (GetUserOfficerships roundTrip id s) = Returns (result, Some e) ->
  exists (k : nat) (failing : Officership) (pe : time.ParseError),
    nth_error decoded k = Some failing
    /\ e = TimeParseError pe
    /\ snd (time.Parse time.layout_ymd (FromDateRaw failing)) = Some pe
    /\ List.length result = List.length decoded
    /\ (forall i o o',
          nth_error decoded i = Some o -> nth_error result i = Some o' ->
          same_raw o o'
          /\ ((i < k)%nat -> carries_parsed_dates o o')
          /\ (i = k -> failed_dates o o')
          /\ ((k < i)%nat -> o' = o)
          /\ ((k <= i)%nat -> dates_zero o -> dates_zero o')).
Proof.
  intros H U R. rewrite (GetUserOfficerships_decoded _ _ _ _ H U) in R.
  inversion R as [R']. clear R.
  destruct (normalise_all_failure _ _ _ R') as (pre & v & post & -> & -> & Hv & Hpre).
  destruct (normalise_failure v e Hv) as [(pe & -> & Hpe) Hzero].
  pose proof (normalise_failure_dates v _ Hv) as Hfd.
  exists (List.length pre), v, pe.
  split; [rewrite nth_error_app2, Nat.sub_diag by apply Nat.le_refl; reflexivity|].
  split; [reflexivity|]. split; [exact Hpe|].
  split; [rewrite !length_app, length_map; reflexivity|].
  intros i o o' Ho Ho'.
  destruct (Nat.lt_ge_cases i (List.length pre)) as [Hlt|Hge].
  - rewrite nth_error_app1 in Ho by exact Hlt.
    rewrite nth_error_app1 in Ho' by (rewrite length_map; exact Hlt).
    rewrite nth_error_map, Ho in Ho'. cbn [option_map] in Ho'. inversion Ho'; subst o'.
    split; [apply normalise_same_raw|].
    split; [|split; [lia | split; lia]].
    intros _. apply normalise_ok.
    rewrite Forall_forall in Hpre. apply Hpre. eapply nth_error_In. exact Ho.
  - rewrite nth_error_app2 in Ho by exact Hge.
    rewrite nth_error_app2 in Ho' by (rewrite length_map; exact Hge).
    rewrite length_map in Ho'.
    destruct (i - List.length pre)%nat as [|j] eqn:Ei; cbn [nth_error] in Ho, Ho'.
    + inversion Ho; subst o. inversion Ho'; subst o'.
      split; [apply normalise_same_raw|].
      split; [lia|]. split; [intros _; exact Hfd|]. split; [lia|].
      intros _. exact Hzero.
    + rewrite Ho in Ho'. inversion Ho'; subst o'.
      split; [repeat split|].
      split; [lia|]. split; [lia|]. split; [reflexivity|].
      intros _ Z0. exact Z0.
Qed.

End ClientProperties.

(* ================================================================== *)
(** * More properties of tracks.go *)

(** ** Blank lengths, and spaces for colons *)

Lemma byte_of_inj (a b : ascii) : byte_of a = byte_of b -> a = b.
Proof.
  unfold byte_of. intros H. apply N2Z.inj in H.
  rewrite <- (ascii_N_embedding a), <- (ascii_N_embedding b), H. reflexivity.
Qed.

Lemma bytes_of_Replace_all (l : string) :
  bytes_of (strings_Replace_all l ":" " ")
  = map (fun c => if c =? 58 then 32 else c) (bytes_of l).
Proof.
  unfold bytes_of. induction l as [|c l IH]; cbn [strings_Replace_all list_ascii_of_string map];
    [reflexivity|].
  rewrite IH. f_equal.
  destruct (Ascii.eqb_spec c ":") as [->|N]; [reflexivity|].
  destruct (Z.eqb_spec (byte_of c) 58) as [E|_]; [|reflexivity].
  exfalso. apply N. apply byte_of_inj. exact E.
Qed.

Lemma SkipSpace_runes_all_space (rs : list rune) :
  Forall (fun r => fmt.isSpace r = true) rs -> fmt.SkipSpace_runes rs = [].
Proof.
  induction 1 as [|r rs Hr _ IH]; [reflexivity|].
  rewrite SkipSpace_runes_cons, Hr. exact IH.
Qed.

Lemma isSpace_ascii_space (c : Z) : c = 32 \/ 9 <= c <= 13 -> fmt.isSpace c = true.
Proof.
  intros [->|H]; [reflexivity|].
  assert (E : c = 9 \/ c = 10 \/ c = 11 \/ c = 12 \/ c = 13) by lia.
  repeat (destruct E as [->|E]; [reflexivity|]). subst c. reflexivity.
Qed.

(** X5.  A length that holds nothing but colons and white space (the
    empty length among them) makes [LengthSec] fail: it returns 0 and the
    end-of-input error of [fmt.Sscan]. *)
Theorem LengthSec_blank (t : Track) :
  blank (Length t) -> LengthSec t = (0, Some fmt.io_EOF).
Proof.
  unfold blank. intros B.
  assert (S : Forall (fun c => c = 32 \/ 9 <= c <= 13)
                     (bytes_of (strings_Replace_all (Length t) ":" " "))).
  { rewrite bytes_of_Replace_all. induction B as [|c l Hc _ IH]; cbn [map]; constructor;
      [|exact IH].
    destruct (Z.eqb_spec c 58); [left; reflexivity|].
    destruct Hc as [Hc|Hc]; [contradiction | exact Hc]. }
  assert (R : fmt.SkipSpace_runes (runes_of (strings_Replace_all (Length t) ":" " ")) = []).
  { unfold runes_of. rewrite decode_ascii.
    - apply SkipSpace_runes_all_space. eapply Forall_impl; [|exact S].
      cbv beta. intros c Hc. apply isSpace_ascii_space, Hc.
    - eapply Forall_impl; [|exact S]. cbv beta. intros c Hc. lia. }
  unfold LengthSec, fmt.Sscan3, fmt.scanUint, fmt.SkipSpace. cbn [fmt.input fmt.buf].
  rewrite R. reflexivity.
Qed.

Lemma Replace_all_idempotent (l : string) :
  strings_Replace_all (strings_Replace_all l ":" " ") ":" " " = strings_Replace_all l ":" " ".
Proof.
  induction l as [|c l IH]; cbn [strings_Replace_all]; [reflexivity|].
  rewrite IH. destruct (Ascii.eqb_spec c ":") as [->|N].
  - reflexivity.
  - destruct (Ascii.eqb_spec c ":"); [contradiction | reflexivity].
Qed.

(** X6.  Colons and spaces are interchangeable in a length: a track whose
    length has every colon written as a space gets the value and the error
    of the track with the colons. *)
Theorem LengthSec_spaces_for_colons (t : Track) :
  LengthSec (track_of_length (strings_Replace_all (Length t) ":" " ")) = LengthSec t.
Proof.
  unfold LengthSec, track_of_length. cbn [Length].
  rewrite Replace_all_idempotent. reflexivity.
Qed.

(** ** Microseconds of a decimal length *)

Lemma Sscan3_decimal_length (h m s : Z) :
  0 <= h < 2 ^ 64 -> 0 <= m < 2 ^ 64 -> 0 <= s < 2 ^ 64 ->
  fmt.Sscan3 (strings_Replace_all (itoa h ++ String ":" (itoa m ++ String ":" (itoa s))) ":" " ")
             0 0 0
  = ((h, m, s), 3, None).
Proof.
  intros Hh Hm Hs.
  rewrite Replace_all_app. cbn [strings_Replace_all].
  change (Ascii.eqb ":" ":") with true. cbv iota.
  rewrite Replace_all_app. cbn [strings_Replace_all].
  change (Ascii.eqb ":" ":") with true. cbv iota.
  rewrite !Replace_all_digits by (apply itoa_digits; lia).
  apply Sscan3_decimal; assumption.
Qed.

(** X7.  For hours, minutes and seconds written as decimal numerals
    without leading zeros, each below 2^64, [LengthUsec] succeeds and
    returns [(h*3600 + m*60 + s) * 1000000] reduced modulo 2^64; that is
    the exact number of microseconds whenever the length is at most
    18,446,744,073,709 seconds. *)
Theorem LengthUsec_decimal (h m s : Z) :
  0 <= h < 2 ^ 64 -> 0 <= m < 2 ^ 64 -> 0 <= s < 2 ^ 64 ->
  LengthUsec (track_of_length (itoa h ++ String ":" (itoa m ++ String ":" (itoa s))))
  = (((h * 3600 + m * 60 + s) * 1000000) mod 2 ^ 64, None)
  /\ (h * 3600 + m * 60 + s <= 18446744073709 ->
      LengthUsec (track_of_length (itoa h ++ String ":" (itoa m ++ String ":" (itoa s))))
      = ((h * 3600 + m * 60 + s) * 1000000, None)).
Proof.
  intros Hh Hm Hs.
  assert (E : LengthUsec (track_of_length (itoa h ++ String ":" (itoa m ++ String ":" (itoa s))))
              = (((h * 3600 + m * 60 + s) * 1000000) mod 2 ^ 64, None)).
  { unfold LengthUsec, LengthSec, track_of_length. cbn [Length].
    rewrite (Sscan3_decimal_length h m s Hh Hm Hs).
    f_equal. unfold u64_add, u64_mul, wrap64.
    rewrite (Zmult_mod_idemp_l (h * 60) 60).
    rewrite <- Zplus_mod. rewrite Zplus_mod_idemp_l.
    rewrite Zmult_mod_idemp_l. f_equal. lia. }
  split; [exact E|].
  intros Hle. rewrite E. f_equal. apply Z.mod_small.
  change (2 ^ 64) with 18446744073709551616. lia.
Qed.

(** ** Zero-padded fields *)

Lemma field_text_digits (txt : string) (n : Z) :
  field_text txt n -> Forall (fun c => 48 <= c <= 57) (bytes_of txt).
Proof.
  intros [[H ->]|[H ->]]; [apply itoa_digits; lia|].
  unfold bytes_of. cbn [list_ascii_of_string map]. constructor.
  - vm_compute. split; discriminate.
  - apply itoa_digits. lia.
Qed.

Lemma scanUint_field (txt : string) (n : Z) (b : list rune) :
  field_text txt n ->
  fmt.scanUint {| fmt.input := bytes_of txt; fmt.buf := b |}
  = inl (n, {| fmt.input := []; fmt.buf := bytes_of txt |}).
Proof.
  intros [[H ->]|[H ->]]; [apply scanUint_itoa; exact H|].
  assert (E : n = 0 \/ n = 1 \/ n = 2 \/ n = 3 \/ n = 4 \/ n = 5 \/ n = 6 \/ n = 7) by lia.
  repeat (destruct E as [->|E]; [reflexivity|]). subst n. reflexivity.
Qed.

Lemma runes_of_digits (txt : string) :
  Forall (fun c => 48 <= c <= 57) (bytes_of txt) -> runes_of txt = bytes_of txt.
Proof.
  intros H. unfold runes_of. apply decode_ascii.
  eapply Forall_impl; [|exact H]. cbv beta. intros c Hc. lia.
Qed.



Lemma scanUint_zero_then_8_9 (c : Z) (tail b : list rune) :
  c = 56 \/ c = 57 ->
  fmt.scanUint {| fmt.input := 48 :: c :: 32 :: tail; fmt.buf := b |}
  = inl (0, {| fmt.input := c :: 32 :: tail; fmt.buf := [48] |})
  /\ fmt.scanUint {| fmt.input := c :: 32 :: tail; fmt.buf := b |}
     = inl (c - 48, {| fmt.input := 32 :: tail; fmt.buf := [c] |}).
Proof. intros [->| ->]; split; reflexivity. Qed.

Lemma Sscan3_minutes_8_9 (th rest : string) (h : Z) (d : ascii) (a b c : Z) :
  field_text th h -> d = "8"%char \/ d = "9"%char ->
  fmt.Sscan3 (th ++ String " " (String "0" (String d (String " " rest)))) a b c
  = ((h, 0, byte_of d - 48), 3, None).
Proof.
  intros Hh Hd. unfold fmt.Sscan3.
  rewrite runes_of_app_space.
  change (String "0" (String d (String " " rest)))
    with (String "0" (String d EmptyString) ++ String " " rest)%string.
  rewrite runes_of_app_space.
  assert (E : runes_of (String "0" (String d EmptyString)) = [48; byte_of d])
    by (destruct Hd as [->| ->]; reflexivity).
  rewrite E. cbn [app].
  rewrite (runes_of_digits th) by (eapply field_text_digits; eassumption).
  set (Y := runes_of rest).
  assert (Hc : byte_of d = 56 \/ byte_of d = 57)
    by (destruct Hd as [->| ->]; [left | right]; reflexivity).
  change {| fmt.input := bytes_of th ++ 32 :: 48 :: byte_of d :: 32 :: Y; fmt.buf := [] |}
    with (ext (48 :: byte_of d :: 32 :: Y) {| fmt.input := bytes_of th; fmt.buf := [] |}).
  rewrite (scanUint_ext _ _ _ _ (scanUint_field th h [] Hh)).
  unfold ext at 1. cbn [fmt.input fmt.buf app].
  rewrite (scanUint_space _ _ []).
  pose proof (proj1 (scanUint_zero_then_8_9 (byte_of d) Y [] Hc)) as P1.
  pose proof (proj2 (scanUint_zero_then_8_9 (byte_of d) Y [48] Hc)) as P2.
  unfold rune, byte in *. rewrite P1, P2. reflexivity.
Qed.

(** X3.  After an hours field that is read as written (a decimal numeral
    below 2^64 without leading zeros, or a zero followed by one digit from
    0 to 7), a minutes field written [08] or [09] and followed by a colon
    is read as two numbers, whatever stands after that colon: the zero is
    taken for the minutes, the 8 or 9 for the seconds, and the rest of
    the length is not read.  [LengthSec] succeeds with [h*3600 + 8] (or
    [+ 9]) reduced modulo 2^64. *)
Theorem LengthSec_minutes_08_09 (th rest : string) (h : Z) :
  field_text th h ->
  LengthSec (track_of_length (th ++ String ":" (String "0" (String "8" (String ":" rest)))))
  = ((h * 3600 + 8) mod 2 ^ 64, None)
  /\ LengthSec (track_of_length (th ++ String ":" (String "0" (String "9" (String ":" rest)))))
     = ((h * 3600 + 9) mod 2 ^ 64, None).
Proof.
  intros Hh.
  assert (G : forall d, d = "8"%char \/ d = "9"%char ->
              LengthSec (track_of_length
                           (th ++ String ":" (String "0" (String d (String ":" rest)))))
              = ((h * 3600 + (byte_of d - 48)) mod 2 ^ 64, None)).
  { intros d Hd. unfold LengthSec, track_of_length. cbn [Length].
    rewrite Replace_all_app. cbn [strings_Replace_all].
    change (Ascii.eqb ":" ":") with true. cbv iota.
    replace (if Ascii.eqb "0" ":" then " "%char else "0"%char) with "0"%char by reflexivity.
    replace (if Ascii.eqb d ":" then " "%char else d) with d
      by (destruct Hd as [->| ->]; reflexivity).
    rewrite Replace_all_digits by (eapply field_text_digits; eassumption).
    rewrite (Sscan3_minutes_8_9 th _ h d 0 0 0 Hh Hd).
    f_equal. unfold u64_add, u64_mul, wrap64.
    rewrite (Zmult_mod_idemp_l (h * 60) 60).
    rewrite <- Zplus_mod. rewrite Zplus_mod_idemp_l.
    f_equal. lia. }
  split; [exact (G "8"%char (or_introl eq_refl)) | exact (G "9"%char (or_intror eq_refl))].
Qed.

(** ** A field that does not fit 64 bits *)

Lemma wrap64_once (z : Z) : 2 ^ 64 <= z < 2 * 2 ^ 64 -> wrap64 z = z - 2 ^ 64.
Proof.
  intros H. unfold wrap64. symmetry.
  apply (Z.mod_unique z (2 ^ 64) 1); [left; lia | lia].
Qed.

Lemma digits_loop_digit_overflow (k c : Z) (rest : list byte) (acc : Z) (u : bool) :
  0 <= k <= 9 -> c = 48 + k -> 0 <= acc < 2 ^ 64 -> 2 ^ 64 <= 10 * acc + k ->
  strconv.digits_loop 10 true (maxUint64 / 10 + 1) maxUint64 (c :: rest) acc u
  = inr strconv.ErrRange.
Proof.
  intros Hk -> Hacc Hv.
  cbn [strconv.digits_loop].
  change (strconv.ch "_") with 95. change (strconv.ch "0") with 48.
  change (strconv.ch "9") with 57.
  change (maxUint64 / 10 + 1) with 1844674407370955162.
  change maxUint64 with 18446744073709551615.
  destruct (Z.eqb_spec (48 + k) 95) as [E|_]; [lia|]. cbn [andb].
  destruct (Z.leb_spec 48 (48 + k)) as [_|E]; [|lia].
  destruct (Z.leb_spec (48 + k) 57) as [_|E]; [|lia]. cbn [andb].
  replace (48 + k - 48) with k by lia.
  destruct (Z.leb_spec 10 k) as [E|_]; [lia|].
  destruct (Z.leb_spec 1844674407370955162 acc) as [E|E]; [reflexivity|].
  unfold u64_mul, u64_add.
  change (2 ^ 64) with 18446744073709551616 in *.
  rewrite (wrap64_small (acc * 10)) by (change (2 ^ 64) with 18446744073709551616; lia).
  rewrite (wrap64_once (acc * 10 + k)) by (change (2 ^ 64) with 18446744073709551616; lia).
  change (2 ^ 64) with 18446744073709551616.
  destruct (Z.ltb_spec (acc * 10 + k - 18446744073709551616) (acc * 10)) as [_|E']; [|lia].
  reflexivity.
Qed.

Lemma digits_loop_overflow (d : Decimal.uint) :
  forall acc u,
    0 <= acc < 2 ^ 64 -> 2 ^ 64 <= uint_value d acc ->
    strconv.digits_loop 10 true (maxUint64 / 10 + 1) maxUint64 (numeral d) acc u
    = inr strconv.ErrRange.
Proof.
  induction d; intros acc u Hacc Hv; cbn [uint_value] in *; [lia|..];
    match type of Hv with
    | _ <= uint_value _ (10 * acc + ?k) =>
        destruct (Z.lt_ge_cases (10 * acc + k) (2 ^ 64)) as [Hs|Hb];
        [ rewrite <- (IHd (10 * acc + k) u ltac:(lia) Hv);
          apply (digits_loop_digit k); [lia | reflexivity | lia | lia]
        | apply (digits_loop_digit_overflow k); [lia | reflexivity | exact Hacc | lia] ]
    | _ <= uint_value _ (10 * acc) =>
        destruct (Z.lt_ge_cases (10 * acc + 0) (2 ^ 64)) as [Hs|Hb];
        [ rewrite <- (IHd (10 * acc) u ltac:(lia) Hv);
          replace (10 * acc) with (10 * acc + 0) by lia;
          apply (digits_loop_digit 0); [lia | reflexivity | lia | lia]
        | apply (digits_loop_digit_overflow 0); [lia | reflexivity | exact Hacc | lia] ]
    end.
Qed.

Lemma ParseUint_numeral_overflow (p : positive) :
  2 ^ 64 <= Z.pos p ->
  strconv.ParseUint (numeral (Pos.to_uint p)) 0 64
  = (maxUint64,
     Some {| strconv.Func := "ParseUint"; strconv.Num := numeral (Pos.to_uint p);
             strconv.Why := strconv.ErrRange |}).
Proof.
  intros Hp. destruct (to_uint_canonical p) as (c & cs & E & Hc).
  pose proof (digits_loop_overflow (Pos.to_uint p) 0 false) as L.
  rewrite uint_value_to_uint in L.
  specialize (L ltac:(change (2 ^ 64) with 18446744073709551616; lia) Hp).
  rewrite E in *. unfold strconv.ParseUint.
  change (0 =? 0) with true. cbn [andb Z.leb Z.compare].
  change (strconv.ch "0") with 48.
  destruct (Z.eqb_spec c 48) as [E0|_]; [lia|].
  cbv beta iota.
  change ((64 <? 0) || (64 <? 64)) with false. cbv beta iota.
  change (64 =? 0) with false. cbv beta iota.
  change (wrap64 (wrap64 (Z.shiftl 1 64) - 1)) with maxUint64.
  rewrite L. reflexivity.
Qed.

Lemma scanNumber_error (digits : string) (haveDigits : bool) (s : fmt.ss) (e : fmt.scanError) :
  fmt.scanNumber digits haveDigits s = inr e -> e = fmt.io_EOF \/ e = fmt.expected_integer.
Proof.
  unfold fmt.scanNumber. destruct haveDigits; [discriminate|].
  destruct (fmt.input s); [intros E; inversion E; left; reflexivity|].
  destruct (fmt.accept digits s) as [[|] s']; [discriminate|].
  intros E; inversion E. right. reflexivity.
Qed.

Lemma scanUint_ext_num_error (y : list rune) (s : fmt.ss) (e : strconv.NumError) :
  fmt.scanUint s = inr (fmt.num_error e) ->
  fmt.scanUint (ext y s) = inr (fmt.num_error e).
Proof.
  unfold fmt.scanUint, fmt.SkipSpace. cbn [fmt.input fmt.buf].
  destruct (fmt.SkipSpace_runes (fmt.input s)) as [|r rest] eqn:Esk; [discriminate|].
  assert (E2 : fmt.SkipSpace_runes (fmt.input (ext y s)) = r :: (rest ++ 32 :: y)).
  { unfold ext. cbn [fmt.input].
    rewrite SkipSpace_runes_app by (rewrite Esk; discriminate).
    rewrite Esk. reflexivity. }
  rewrite E2.
  change {| fmt.input := r :: rest ++ 32 :: y; fmt.buf := [] |}
    with (ext y {| fmt.input := r :: rest; fmt.buf := [] |}).
  rewrite scanBasePrefix_ext.
  pose proof (scanBasePrefix_digits {| fmt.input := r :: rest; fmt.buf := [] |}) as Hd.
  destruct (fmt.scanBasePrefix {| fmt.input := r :: rest; fmt.buf := [] |})
    as [[[base digits] haveDigits] s1].
  cbn [fst snd] in *.
  destruct (fmt.scanNumber digits haveDigits s1) as [[tok s2]|e'] eqn:En.
  - rewrite (scanNumber_ext _ _ y _ _ _ Hd En).
    destruct (strconv.ParseUint tok base 64) as [i [e''|]]; [|discriminate].
    intros E; exact E.
  - intros E. inversion E; subst.
    destruct (scanNumber_error _ _ _ _ En); discriminate.
Qed.

Lemma scanUint_itoa_overflow (n : Z) (b : list rune) :
  2 ^ 64 <= n ->
  fmt.scanUint {| fmt.input := bytes_of (itoa n); fmt.buf := b |}
  = inr (fmt.num_error {| strconv.Func := "ParseUint"; strconv.Num := bytes_of (itoa n);
                          strconv.Why := strconv.ErrRange |}).
Proof.
  intros Hn. destruct n as [|p|p]; try (exfalso; lia).
  assert (E : bytes_of (itoa (Z.pos p)) = numeral (Pos.to_uint p)).
  { unfold itoa, numeral. cbn [Z.to_int NilZero.string_of_int NilZero.string_of_uint].
    destruct (Pos.to_uint p) eqn:Ep; try reflexivity.
    exfalso. exact (DecimalPos.Unsigned.to_uint_nonnil p Ep). }
  rewrite E. clear E.
  pose proof (ParseUint_numeral_overflow p Hn) as PU.
  pose proof (numeral_digits (Pos.to_uint p)) as D.
  destruct (to_uint_canonical p) as (c & cs & E & Hc).
  rewrite E in *. inversion D as [|? ? _ Dcs]; subst.
  unfold fmt.scanUint, fmt.SkipSpace. cbn [fmt.input fmt.buf].
  rewrite SkipSpace_runes_cons, isSpace_digit by lia.
  unfold fmt.scanBasePrefix, fmt.peek. cbn [fmt.input].
  rewrite indexRune_zero_digit by lia. cbn [negb].
  unfold fmt.scanNumber, fmt.accept, fmt.consume. cbn [fmt.input fmt.buf].
  rewrite indexRune_decimal_digit by lia. cbn [app fmt.input fmt.buf].
  rewrite accept_loop_all.
  2:{ eapply Forall_impl; [|exact Dcs]. intros x Hx. apply indexRune_decimal_digit, Hx. }
  cbn [fmt.buf app]. unfold rune, byte in *. rewrite PU. reflexivity.
Qed.

(** X4.  An hours field that does not fit 64 bits is not wrapped around:
    [LengthSec] returns 0 and the range error of [strconv.ParseUint] for
    that numeral, whatever follows the first colon. *)
Theorem LengthSec_field_overflow (h : Z) (rest : string) :
  2 ^ 64 <= h ->
  LengthSec (track_of_length (itoa h ++ String ":" rest))
  = (0, Some (fmt.num_error {| strconv.Func := "ParseUint";
                               strconv.Num := bytes_of (itoa h);
                               strconv.Why := strconv.ErrRange |})).
Proof.
  intros Hh. unfold LengthSec, track_of_length. cbn [Length].
  rewrite Replace_all_app. cbn [strings_Replace_all].
  change (Ascii.eqb ":" ":") with true. cbv iota.
  rewrite Replace_all_digits by (apply itoa_digits; lia).
  unfold fmt.Sscan3. rewrite runes_of_app_space, runes_of_itoa by lia.
  change {| fmt.input := bytes_of (itoa h) ++ 32 :: runes_of (strings_Replace_all rest ":" " ");
            fmt.buf := [] |}
    with (ext (runes_of (strings_Replace_all rest ":" " "))
              {| fmt.input := bytes_of (itoa h); fmt.buf := [] |}).
  rewrite (scanUint_ext_num_error _ _ _ (scanUint_itoa_overflow h [] Hh)).
  reflexivity.
Qed.

(** ** The fields of a length and the integers read from them *)

(** *** Fields *)



(** *** White space and digits as the scanner sees them *)

















(** *** [strconv.ParseUint] on runs of digits *)









(** *** [scanUint] on a field *)





(** *** Numerals *)





(** *** Three operands from the fields *)





(* ================================================================== *)
(** * Properties of time.Parse for the layouts of user.go *)

(** ** A parse that succeeds gives a calendar date *)

Lemma byte_of_digit_char (n : Z) : 0 <= n <= 9 -> byte_of (digit_char n) = 48 + n.
Proof.
  intros H. unfold byte_of, digit_char.
  rewrite N_ascii_embedding by lia. lia.
Qed.

Lemma isDigit_head (c : Z) (rest : list byte) :
  time.isDigit (c :: rest) 0 = ((48 <=? c) && (c <=? 57)).
Proof. reflexivity. Qed.

Lemma getnum_range (s : list byte) (fixed : bool) (n : Z) (rest : list byte) :
  time.getnum s fixed = Some (n, rest) -> 0 <= n <= 99.
Proof.
  unfold time.getnum.
  destruct s as [|c0 s]; [discriminate|].
  rewrite isDigit_head.
  destruct (Z.leb_spec 48 c0); [|discriminate].
  destruct (Z.leb_spec c0 57); [|discriminate]. cbn [andb negb].
  destruct s as [|c1 s].
  - cbn. destruct fixed; [discriminate|]. intros E; inversion E; subst. lia.
  - change (time.isDigit (c0 :: c1 :: s) 1) with ((48 <=? c1) && (c1 <=? 57)).
    destruct (Z.leb_spec 48 c1); cbn [andb negb].
    + destruct (Z.leb_spec c1 57); cbn [andb negb].
      * intros E; inversion E; subst. lia.
      * destruct fixed; [discriminate|]. intros E; inversion E; subst. lia.
    + destruct fixed; [discriminate|]. intros E; inversion E; subst. lia.
Qed.

Lemma pow10_pos (n : nat) : 0 < pow10 n.
Proof. induction n; cbn [pow10]; lia. Qed.

Lemma leadingInt_bound (s : list byte) :
  forall x q rest, 0 <= x -> time.leadingInt s x = Some (q, rest) ->
                   x <= q < (x + 1) * pow10 (List.length s).
Proof.
  induction s as [|c s IH]; intros x q rest Hx; cbn [time.leadingInt List.length pow10].
  - intros E; inversion E; subst. lia.
  - pose proof (pow10_pos (List.length s)) as P.
    destruct (Z.ltb_spec c 48); cbn [orb].
    { intros E; inversion E; subst. nia. }
    destruct (Z.ltb_spec 57 c); cbn [orb].
    { intros E; inversion E; subst. nia. }
    destruct (2 ^ 63 / 10 <? x); [discriminate|].
    destruct (2 ^ 63 <? x * 10 + c - 48); [discriminate|].
    intros E. apply IH in E; [|lia]. nia.
Qed.

Lemma atoi_year_range (value : list byte) (y : Z) :
  time.isDigit value 0 = true ->
  time.atoi (firstn 4 value) = Some y -> 0 <= y <= 9999.
Proof.
  destruct value as [|c value]; [discriminate|].
  rewrite isDigit_head. intros D.
  apply andb_prop in D. destruct D as [D1 D2].
  apply Z.leb_le in D1. apply Z.leb_le in D2.
  change (firstn 4 (c :: value)) with (c :: firstn 3 value).
  assert (Hl : (List.length (firstn 3 value) <= 3)%nat) by apply firstn_le_length.
  remember (firstn 3 value) as v3 eqn:E3. clear E3.
  unfold time.atoi.
  destruct (Z.eqb_spec c 45); [lia|]. destruct (Z.eqb_spec c 43); [lia|]. cbn [orb].
  destruct (time.leadingInt (c :: v3) 0) as [[q rest]|] eqn:L; [|discriminate].
  apply leadingInt_bound in L; [|lia].
  destruct rest; [|discriminate]. intros E; inversion E; subst.
  assert (P : pow10 (List.length (c :: v3)) <= 10000).
  { cbn [List.length]. destruct v3 as [|? [|? [|? [|? ?]]]]; cbn [List.length pow10] in *; lia. }
  nia.
Qed.

Lemma element_ok (e : time.std) (value rest : list byte) (f f' : time.fields) :
  fields_ok f -> time.element e value f = inl (f', rest) -> fields_ok f'.
Proof.
  unfold fields_ok. intros (Hy & Hm & Hh & Hn).
  destruct e; unfold time.element.
  - destruct (Nat.ltb (List.length value) 4); cbn [orb]; [discriminate|].
    destruct (time.isDigit value 0) eqn:D; cbn [negb]; [|discriminate].
    destruct (time.atoi (firstn 4 value)) as [y|] eqn:A; [|discriminate].
    intros E; inversion E; subst; cbn.
    pose proof (atoi_year_range value y D A). tauto.
  - destruct (time.getnum value true) as [[m v']|] eqn:G; [|discriminate].
    destruct (Z.leb_spec m 0); cbn [orb]; [discriminate|].
    destruct (Z.ltb_spec 12 m); [discriminate|].
    intros E; inversion E; subst; cbn. repeat split; try tauto; try lia.
  - destruct (time.getnum value true) as [[d v']|] eqn:G; [|discriminate].
    intros E; inversion E; subst; cbn. tauto.
  - destruct (time.getnum value false) as [[h v']|] eqn:G; [|discriminate].
    destruct (Z.ltb_spec h 0); cbn [orb]; [discriminate|].
    destruct (Z.leb_spec 24 h); [discriminate|].
    intros E; inversion E; subst; cbn. repeat split; try tauto; lia.
  - destruct (time.getnum value true) as [[m v']|] eqn:G; [|discriminate].
    destruct (Z.ltb_spec m 0); cbn [orb]; [discriminate|].
    destruct (Z.leb_spec 60 m); [discriminate|].
    intros E; inversion E; subst; cbn. repeat split; try tauto; lia.
Qed.

Lemma parse_chunks_ok (cs : list (string * time.std)) :
  forall value f f',
    fields_ok f -> time.parse_chunks cs value f = inl f' -> fields_ok f'.
Proof.
  induction cs as [|[prefix e] cs IH]; intros value f f' Hf; cbn [time.parse_chunks].
  - destruct value; [|discriminate]. intros E; inversion E; subst. exact Hf.
  - destruct (time.skip value (bytes_of prefix)) as [v|]; [|discriminate].
    destruct (time.element e v f) as [[f1 v1]|[r p]] eqn:El; [|discriminate].
    intros E. eapply IH; [|exact E]. eapply element_ok; eassumption.
Qed.

(** Whatever the layout, a time that [time.Parse] returns without an
    error is a calendar date and a time of day. *)
Lemma Parse_valid (l : time.layout) (v : string) (t : time.Time) :
  time.Parse l v = (t, None) -> valid_date t.
Proof.
  unfold time.Parse.
  destruct (time.parse_chunks (time.chunks l) (bytes_of v) time.fields0) as [f|[r p]] eqn:P;
    [|discriminate].
  assert (F0 : fields_ok time.fields0) by (unfold fields_ok; cbn; lia).
  destruct (parse_chunks_ok _ _ _ _ F0 P) as (Hy & Hm & Hh & Hn).
  destruct (Z.ltb_spec (if time.f_day f <? 0 then 1 else time.f_day f) 1); cbn [orb];
    [discriminate|].
  destruct (Z.ltb_spec (time.daysIn (if time.f_month f <? 0 then 1 else time.f_month f)
                                    (time.f_year f))
                       (if time.f_day f <? 0 then 1 else time.f_day f)); [discriminate|].
  intros E; inversion E; subst. unfold valid_date. cbn.
  repeat split; try tauto; try lia;
    destruct (Z.ltb_spec (time.f_month f) 0); lia.
Qed.

(** ** Dates written out parse to themselves *)

Ltac decide_cmp :=
  repeat
    (cbn [andb orb negb];
     match goal with
     | |- context [Z.leb ?a ?b] =>
         first [ destruct (Z.leb_spec a b); [|exfalso; lia]
               | destruct (Z.leb_spec a b); [exfalso; lia|] ]
     | |- context [Z.ltb ?a ?b] =>
         first [ destruct (Z.ltb_spec a b); [|exfalso; lia]
               | destruct (Z.ltb_spec a b); [exfalso; lia|] ]
     | |- context [Z.eqb ?a ?b] =>
         first [ destruct (Z.eqb_spec a b); [|exfalso; lia]
               | destruct (Z.eqb_spec a b); [exfalso; lia|] ]
     end);
  cbn [andb orb negb].

Lemma getnum_two (a b : Z) (rest : list byte) (fixed : bool) :
  0 <= a <= 9 -> 0 <= b <= 9 ->
  time.getnum ((48 + a) :: (48 + b) :: rest) fixed = Some (a * 10 + b, rest).
Proof.
  intros Ha Hb. unfold time.getnum, time.isDigit. cbn [nth_error].
  decide_cmp. f_equal. f_equal. lia.
Qed.

Lemma atoi_four (a b c d : Z) (rest : list byte) :
  0 <= a <= 9 -> 0 <= b <= 9 -> 0 <= c <= 9 -> 0 <= d <= 9 ->
  time.atoi (firstn 4 ((48 + a) :: (48 + b) :: (48 + c) :: (48 + d) :: rest))
  = Some (((a * 10 + b) * 10 + c) * 10 + d).
Proof.
  intros Ha Hb Hc Hd. cbn [firstn]. unfold time.atoi.
  decide_cmp. cbn [time.leadingInt].
  change (2 ^ 63 / 10) with 922337203685477580.
  change (2 ^ 63) with 9223372036854775808.
  decide_cmp. f_equal. lia.
Qed.

Lemma two_digits_bytes (n : Z) :
  0 <= n <= 99 -> bytes_of (two_digits n) = [48 + n / 10; 48 + n mod 10].
Proof.
  intros H. unfold bytes_of, two_digits. cbn [list_ascii_of_string map].
  rewrite !byte_of_digit_char; [reflexivity | | ];
    pose proof (Z.div_mod n 10 ltac:(lia)); pose proof (Z.mod_pos_bound n 10 ltac:(lia)); lia.
Qed.

Lemma four_digits_bytes (n : Z) :
  0 <= n <= 9999 ->
  bytes_of (four_digits n)
  = [48 + n / 1000; 48 + n / 100 mod 10; 48 + n / 10 mod 10; 48 + n mod 10].
Proof.
  intros H. unfold bytes_of, four_digits. cbn [list_ascii_of_string map].
  rewrite !byte_of_digit_char; [reflexivity | | | | ];
    repeat match goal with
           | |- context [?x mod 10] =>
               lazymatch goal with
               | _ : 0 <= x mod 10 < 10 |- _ => fail
               | _ => pose proof (Z.mod_pos_bound x 10 ltac:(lia))
               end
           end;
    try lia.
  pose proof (Z.div_mod n 1000 ltac:(lia)).
  pose proof (Z.mod_pos_bound n 1000 ltac:(lia)). lia.
Qed.

Lemma two_digits_value (n : Z) : 0 <= n -> n / 10 * 10 + n mod 10 = n.
Proof. intros H. Z.div_mod_to_equations. lia. Qed.

Lemma four_digits_value (n : Z) :
  0 <= n ->
  ((n / 1000 * 10 + n / 100 mod 10) * 10 + n / 10 mod 10) * 10 + n mod 10 = n.
Proof. intros H. Z.div_mod_to_equations. lia. Qed.

Lemma digit_bounds (n k : Z) : 0 <= n -> 0 <= n mod 10 <= 9 /\ (n <= 10 * k + 9 -> 0 <= n / 10 <= k).
Proof. intros H. Z.div_mod_to_equations. lia. Qed.

Lemma parse_chunks_cons (prefix : string) (e : time.std) (cs : list (string * time.std))
      (value : list byte) (f : time.fields) :
  time.parse_chunks ((prefix, e) :: cs) value f
  = match time.skip value (bytes_of prefix) with
    | None => inr (value, time.bad_prefix)
    | Some value =>
        match time.element e value f with
        | inr p => inr p
        | inl (f, value) => time.parse_chunks cs value f
        end
    end.
Proof. reflexivity. Qed.

Lemma skip_nothing (value : list byte) : time.skip value (bytes_of "") = Some value.
Proof. reflexivity. Qed.

Lemma skip_slash (rest : list byte) : time.skip (47 :: rest) (bytes_of "/") = Some rest.
Proof. reflexivity. Qed.

Lemma skip_dash (rest : list byte) : time.skip (45 :: rest) (bytes_of "-") = Some rest.
Proof. reflexivity. Qed.

Lemma skip_colon (rest : list byte) : time.skip (58 :: rest) (bytes_of ":") = Some rest.
Proof. reflexivity. Qed.

Lemma skip_space_digit (a : Z) (rest : list byte) :
  0 <= a <= 9 ->
  time.skip (32 :: (48 + a) :: rest) (bytes_of " ") = Some ((48 + a) :: rest).
Proof.
  intros H. unfold time.skip. cbn [bytes_of list_ascii_of_string map time.skip_from].
  change (byte_of " " =? time.sp) with true. cbv iota.
  change (negb (32 =? time.sp)) with false. cbv iota.
  cbn [time.cutspace]. change (32 =? time.sp) with true. cbv iota.
  unfold time.sp. destruct (Z.eqb_spec (48 + a) 32); [lia | reflexivity].
Qed.

Lemma element_day (a b : Z) (rest : list byte) (f : time.fields) :
  0 <= a <= 9 -> 0 <= b <= 9 ->
  time.element time.stdZeroDay ((48 + a) :: (48 + b) :: rest) f
  = inl ({| time.f_year := time.f_year f; time.f_month := time.f_month f;
            time.f_day := a * 10 + b;
            time.f_hour := time.f_hour f; time.f_min := time.f_min f |}, rest).
Proof. intros Ha Hb. unfold time.element. rewrite getnum_two by lia. reflexivity. Qed.

Lemma element_month (a b : Z) (rest : list byte) (f : time.fields) :
  0 <= a <= 9 -> 0 <= b <= 9 -> 1 <= a * 10 + b <= 12 ->
  time.element time.stdZeroMonth ((48 + a) :: (48 + b) :: rest) f
  = inl ({| time.f_year := time.f_year f; time.f_month := a * 10 + b;
            time.f_day := time.f_day f;
            time.f_hour := time.f_hour f; time.f_min := time.f_min f |}, rest).
Proof.
  intros Ha Hb Hr. unfold time.element. rewrite getnum_two by lia.
  destruct (Z.leb_spec (a * 10 + b) 0); [lia|].
  destruct (Z.ltb_spec 12 (a * 10 + b)); [lia|]. reflexivity.
Qed.

Lemma element_hour (a b : Z) (rest : list byte) (f : time.fields) :
  0 <= a <= 9 -> 0 <= b <= 9 -> a * 10 + b < 24 ->
  time.element time.stdHour ((48 + a) :: (48 + b) :: rest) f
  = inl ({| time.f_year := time.f_year f; time.f_month := time.f_month f;
            time.f_day := time.f_day f;
            time.f_hour := a * 10 + b; time.f_min := time.f_min f |}, rest).
Proof.
  intros Ha Hb Hr. unfold time.element. rewrite getnum_two by lia.
  destruct (Z.ltb_spec (a * 10 + b) 0); [lia|].
  destruct (Z.leb_spec 24 (a * 10 + b)); [lia|]. reflexivity.
Qed.

Lemma element_minute (a b : Z) (rest : list byte) (f : time.fields) :
  0 <= a <= 9 -> 0 <= b <= 9 -> a * 10 + b < 60 ->
  time.element time.stdZeroMinute ((48 + a) :: (48 + b) :: rest) f
  = inl ({| time.f_year := time.f_year f; time.f_month := time.f_month f;
            time.f_day := time.f_day f;
            time.f_hour := time.f_hour f; time.f_min := a * 10 + b |}, rest).
Proof.
  intros Ha Hb Hr. unfold time.element. rewrite getnum_two by lia.
  destruct (Z.ltb_spec (a * 10 + b) 0); [lia|].
  destruct (Z.leb_spec 60 (a * 10 + b)); [lia|]. reflexivity.
Qed.

Lemma element_year (a b c d : Z) (rest : list byte) (f : time.fields) :
  0 <= a <= 9 -> 0 <= b <= 9 -> 0 <= c <= 9 -> 0 <= d <= 9 ->
  time.element time.stdLongYear ((48 + a) :: (48 + b) :: (48 + c) :: (48 + d) :: rest) f
  = inl ({| time.f_year := ((a * 10 + b) * 10 + c) * 10 + d;
            time.f_month := time.f_month f; time.f_day := time.f_day f;
            time.f_hour := time.f_hour f; time.f_min := time.f_min f |}, rest).
Proof.
  intros Ha Hb Hc Hd. unfold time.element.
  rewrite atoi_four by lia.
  unfold time.isDigit. cbn [nth_error List.length Nat.ltb Nat.leb orb skipn].
  destruct (Z.leb_spec 48 (48 + a)); [|lia].
  destruct (Z.leb_spec (48 + a) 57); [|lia]. reflexivity.
Qed.

Lemma day_check (t : time.Time) :
  valid_date t ->
  ((if time.day t <? 0 then 1 else time.day t) <? 1)
  || (time.daysIn (if time.month t <? 0 then 1 else time.month t) (time.year t)
      <? (if time.day t <? 0 then 1 else time.day t)) = false.
Proof.
  intros (Hy & Hm & Hd & Hh & Hn).
  destruct (Z.ltb_spec (time.day t) 0); [lia|].
  destruct (Z.ltb_spec (time.month t) 0); [lia|].
  destruct (Z.ltb_spec (time.day t) 1); [lia|].
  destruct (Z.ltb_spec (time.daysIn (time.month t) (time.year t)) (time.day t)); [lia|].
  reflexivity.
Qed.

Lemma day_le_31 (t : time.Time) : valid_date t -> time.day t <= 31.
Proof.
  intros (_ & _ & Hd & _). unfold time.daysIn in Hd.
  repeat match type of Hd with context [if ?c then _ else _] => destruct c end; lia.
Qed.

Ltac digits_of x k :=
  let H := fresh "B" in
  pose proof (digit_bounds x k ltac:(first [lia | Z.div_mod_to_equations; lia])) as H.

(** Every valid date and time written as day/month/year hour:minute
    parses to itself. *)
Lemma Parse_text_dmy_hm (t : time.Time) :
  valid_date t -> time.Parse time.layout_dmy_hm (text_dmy_hm t) = (t, None).
Proof.
  intros V. pose proof (day_le_31 t V) as Hd31. pose proof (day_check t V) as DC.
  destruct V as (Hy & Hm & Hd & Hh & Hn).
  unfold time.Parse.
  assert (B : bytes_of (text_dmy_hm t)
              = [48 + time.day t / 10; 48 + time.day t mod 10; 47;
                 48 + time.month t / 10; 48 + time.month t mod 10; 47;
                 48 + time.year t / 1000; 48 + time.year t / 100 mod 10;
                 48 + time.year t / 10 mod 10; 48 + time.year t mod 10; 32;
                 48 + time.hour t / 10; 48 + time.hour t mod 10; 58;
                 48 + time.minute t / 10; 48 + time.minute t mod 10]).
  { unfold text_dmy_hm. rewrite !bytes_of_app.
    rewrite !two_digits_bytes, four_digits_bytes by lia. reflexivity. }
  rewrite B. clear B.
  destruct t as [y m d h n]. cbn [time.year time.month time.day time.hour time.minute] in *.
  digits_of d 9. digits_of m 9. digits_of h 9. digits_of n 9.
  digits_of y 999. digits_of (y / 10) 99. digits_of (y / 100) 9.
  assert (Ey : 0 <= y / 1000 <= 9) by (Z.div_mod_to_equations; lia).
  pose proof (two_digits_value d ltac:(lia)) as Vd.
  pose proof (two_digits_value m ltac:(lia)) as Vm.
  pose proof (two_digits_value h ltac:(lia)) as Vh.
  pose proof (two_digits_value n ltac:(lia)) as Vn.
  pose proof (four_digits_value y ltac:(lia)) as Vy.
  unfold time.layout_dmy_hm. cbn [time.chunks].
  rewrite parse_chunks_cons, skip_nothing, element_day by lia.
  rewrite parse_chunks_cons, skip_slash, element_month by lia.
  rewrite parse_chunks_cons, skip_slash, element_year by lia.
  rewrite parse_chunks_cons, skip_space_digit, element_hour by lia.
  rewrite parse_chunks_cons, skip_colon, element_minute by lia.
  cbn [time.parse_chunks time.f_year time.f_month time.f_day time.f_hour time.f_min
       time.fields0].
  rewrite Vd, Vm, Vh, Vn, Vy. rewrite DC.
  destruct (Z.ltb_spec m 0); [lia|]. destruct (Z.ltb_spec d 0); [lia|]. reflexivity.
Qed.

(** Every valid date written as year-month-day parses to that date at
    midnight. *)
Lemma Parse_text_ymd (t : time.Time) :
  valid_date t -> time.hour t = 0 -> time.minute t = 0 ->
  time.Parse time.layout_ymd (text_ymd t) = (t, None).
Proof.
  intros V H0 N0. pose proof (day_le_31 t V) as Hd31. pose proof (day_check t V) as DC.
  destruct V as (Hy & Hm & Hd & Hh & Hn).
  unfold time.Parse.
  assert (B : bytes_of (text_ymd t)
              = [48 + time.year t / 1000; 48 + time.year t / 100 mod 10;
                 48 + time.year t / 10 mod 10; 48 + time.year t mod 10; 45;
                 48 + time.month t / 10; 48 + time.month t mod 10; 45;
                 48 + time.day t / 10; 48 + time.day t mod 10]).
  { unfold text_ymd. rewrite !bytes_of_app.
    rewrite !two_digits_bytes, four_digits_bytes by lia. reflexivity. }
  rewrite B. clear B.
  destruct t as [y m d h n]. cbn [time.year time.month time.day time.hour time.minute] in *.
  subst h n.
  digits_of d 9. digits_of m 9.
  digits_of y 999. digits_of (y / 10) 99. digits_of (y / 100) 9.
  assert (Ey : 0 <= y / 1000 <= 9) by (Z.div_mod_to_equations; lia).
  pose proof (two_digits_value d ltac:(lia)) as Vd.
  pose proof (two_digits_value m ltac:(lia)) as Vm.
  pose proof (four_digits_value y ltac:(lia)) as Vy.
  unfold time.layout_ymd. cbn [time.chunks].
  rewrite parse_chunks_cons, skip_nothing, element_year by lia.
  rewrite parse_chunks_cons, skip_dash, element_month by lia.
  rewrite parse_chunks_cons, skip_dash, element_day by lia.
  cbn [time.parse_chunks time.f_year time.f_month time.f_day time.f_hour time.f_min
       time.fields0].
  rewrite Vd, Vm, Vy. rewrite DC.
  destruct (Z.ltb_spec m 0); [lia|]. destruct (Z.ltb_spec d 0); [lia|]. reflexivity.
Qed.

(** ** What parses as year-month-day is written that way *)

Lemma bytes_of_inj (a : string) : forall b, bytes_of a = bytes_of b -> a = b.
Proof.
  unfold bytes_of. induction a as [|c a IH]; intros [|c' b] H;
    cbn [list_ascii_of_string map] in H; try discriminate; [reflexivity|].
  inversion H as [[Hc Hr]]. apply byte_of_inj in Hc. subst c'.
  f_equal. apply IH. exact Hr.
Qed.

Lemma getnum_fixed_inv (s rest : list byte) (n : Z) :
  time.getnum s true = Some (n, rest) ->
  exists a b, 0 <= a <= 9 /\ 0 <= b <= 9
              /\ s = (48 + a) :: (48 + b) :: rest /\ n = a * 10 + b.
Proof.
  unfold time.getnum, time.isDigit.
  destruct s as [|c0 [|c1 s]]; cbn [nth_error]; try discriminate.
  - destruct ((48 <=? c0) && (c0 <=? 57)); discriminate.
  - destruct (Z.leb_spec 48 c0); [|discriminate].
    destruct (Z.leb_spec c0 57); [|discriminate]. cbn [andb negb].
    destruct (Z.leb_spec 48 c1); [|discriminate].
    destruct (Z.leb_spec c1 57); [|discriminate]. cbn [andb negb].
    intros E; inversion E; subst.
    exists (c0 - 48), (c1 - 48). repeat split; try lia.
    f_equal; [lia|]. f_equal. lia.
Qed.

Lemma skip_dash_inv (value rest : list byte) :
  time.skip value (bytes_of "-") = Some rest -> value = 45 :: rest.
Proof.
  unfold time.skip. cbn [bytes_of list_ascii_of_string map time.skip_from].
  change (byte_of "-" =? time.sp) with false. cbv iota.
  destruct value as [|v value]; [discriminate|].
  change (byte_of "-") with 45.
  destruct (Z.eqb_spec v 45); [|discriminate].
  intros E; inversion E; subst. reflexivity.
Qed.

Lemma leadingInt_digit (c : Z) (s : list byte) (x : Z) :
  0 <= x <= 999 ->
  time.leadingInt (c :: s) x
  = if (c <? 48) || (57 <? c) then Some (x, c :: s)
    else time.leadingInt s (x * 10 + c - 48).
Proof.
  intros Hx. cbn [time.leadingInt].
  destruct ((c <? 48) || (57 <? c)) eqn:D; [reflexivity|].
  apply orb_false_iff in D. destruct D as [D1 D2].
  apply Z.ltb_ge in D1. apply Z.ltb_ge in D2.
  change (2 ^ 63 / 10) with 922337203685477580.
  change (2 ^ 63) with 9223372036854775808.
  destruct (Z.ltb_spec 922337203685477580 x); [lia|].
  destruct (Z.ltb_spec 9223372036854775808 (x * 10 + c - 48)); [lia|]. reflexivity.
Qed.

Lemma element_year_inv (value rest : list byte) (f f' : time.fields) :
  time.element time.stdLongYear value f = inl (f', rest) ->
  exists a b c d,
    0 <= a <= 9 /\ 0 <= b <= 9 /\ 0 <= c <= 9 /\ 0 <= d <= 9
    /\ value = (48 + a) :: (48 + b) :: (48 + c) :: (48 + d) :: rest
    /\ f' = {| time.f_year := ((a * 10 + b) * 10 + c) * 10 + d;
               time.f_month := time.f_month f; time.f_day := time.f_day f;
               time.f_hour := time.f_hour f; time.f_min := time.f_min f |}.
Proof.
  unfold time.element.
  destruct value as [|c0 [|c1 [|c2 [|c3 value]]]];
    try (cbn [List.length Nat.ltb Nat.leb orb]; discriminate).
  cbn [List.length Nat.ltb Nat.leb orb firstn skipn].
  unfold time.isDigit. cbn [nth_error].
  destruct (Z.leb_spec 48 c0); [|discriminate].
  destruct (Z.leb_spec c0 57); [|discriminate]. cbn [andb negb].
  unfold time.atoi.
  destruct (Z.eqb_spec c0 45); [lia|]. destruct (Z.eqb_spec c0 43); [lia|]. cbn [orb].
  rewrite leadingInt_digit by lia.
  destruct (Z.ltb_spec c0 48); [lia|]. destruct (Z.ltb_spec 57 c0); [lia|]. cbn [orb].
  rewrite leadingInt_digit by lia.
  destruct (Z.ltb_spec c1 48); cbn [orb]; [discriminate|].
  destruct (Z.ltb_spec 57 c1); [discriminate|].
  rewrite leadingInt_digit by lia.
  destruct (Z.ltb_spec c2 48); cbn [orb]; [discriminate|].
  destruct (Z.ltb_spec 57 c2); [discriminate|].
  rewrite leadingInt_digit by lia.
  destruct (Z.ltb_spec c3 48); cbn [orb]; [discriminate|].
  destruct (Z.ltb_spec 57 c3); [discriminate|].
  cbn [time.leadingInt].
  intros E; inversion E; subst.
  exists (c0 - 48), (c1 - 48), (c2 - 48), (c3 - 48).
  repeat split; try lia.
  - repeat (f_equal; try lia).
  - f_equal. lia.
Qed.

(** The from dates the loop accepts are exactly the valid dates written
    as year-month-day, four, two and two digits. *)
Lemma Parse_ymd_inv (v : string) (t : time.Time) :
  time.Parse time.layout_ymd v = (t, None) ->
  v = text_ymd t /\ time.hour t = 0 /\ time.minute t = 0.
Proof.
  intros P. pose proof (Parse_valid _ _ _ P) as V.
  revert P. unfold time.Parse, time.layout_ymd. cbn [time.chunks].
  rewrite parse_chunks_cons, skip_nothing.
  destruct (time.element time.stdLongYear (bytes_of v) time.fields0)
    as [[f1 r1]|[r p]] eqn:E1; [|discriminate].
  apply element_year_inv in E1. destruct E1 as (a & b & c & d & Ha & Hb & Hc & Hd & Ev & ->).
  rewrite parse_chunks_cons.
  destruct (time.skip r1 (bytes_of "-")) as [r2|] eqn:S1; [|discriminate].
  apply skip_dash_inv in S1. subst r1.
  unfold time.element at 1.
  destruct (time.getnum r2 true) as [[m r3]|] eqn:G1; [|discriminate].
  apply getnum_fixed_inv in G1. destruct G1 as (m1 & m2 & Hm1 & Hm2 & -> & ->).
  destruct ((m1 * 10 + m2 <=? 0) || (12 <? m1 * 10 + m2)) eqn:RM; [discriminate|].
  apply orb_false_iff in RM. destruct RM as [RM1 RM2].
  apply Z.leb_gt in RM1. apply Z.ltb_ge in RM2.
  rewrite parse_chunks_cons.
  destruct (time.skip r3 (bytes_of "-")) as [r4|] eqn:S2; [|discriminate].
  apply skip_dash_inv in S2. subst r3.
  unfold time.element at 1.
  destruct (time.getnum r4 true) as [[dd r5]|] eqn:G2; [|discriminate].
  apply getnum_fixed_inv in G2. destruct G2 as (d1 & d2 & Hd1 & Hd2 & -> & ->).
  cbn [time.parse_chunks].
  destruct r5; [|discriminate].
  cbn [time.f_year time.f_month time.f_day time.f_hour time.f_min time.fields0].
  destruct (_ || _); [discriminate|].
  intros E; inversion E; subst. clear E.
  destruct (Z.ltb_spec (m1 * 10 + m2) 0); [lia|].
  destruct V as (Vy & Vm & Vd & _). cbn in Vy, Vm, Vd.
  destruct (Z.ltb_spec (m1 * 10 + m2) 0); [lia|].
  destruct (Z.ltb_spec (d1 * 10 + d2) 0).
  { exfalso. lia. }
  cbn [time.hour time.minute]. split; [|split; reflexivity].
  apply bytes_of_inj. rewrite Ev.
  unfold text_ymd. rewrite !bytes_of_app.
  cbn [time.year time.month time.day].
  rewrite !two_digits_bytes, four_digits_bytes by lia.
  cbn [app bytes_of list_ascii_of_string map]. change (byte_of "-") with 45.
  set (y := ((a * 10 + b) * 10 + c) * 10 + d) in *.
  replace (y / 1000) with a by (subst y; Z.div_mod_to_equations; lia).
  replace (y / 100 mod 10) with b by (subst y; Z.div_mod_to_equations; lia).
  replace (y / 10 mod 10) with c by (subst y; Z.div_mod_to_equations; lia).
  replace (y mod 10) with d by (subst y; Z.div_mod_to_equations; lia).
  replace ((m1 * 10 + m2) / 10) with m1 by (Z.div_mod_to_equations; lia).
  replace ((m1 * 10 + m2) mod 10) with m2 by (Z.div_mod_to_equations; lia).
  replace ((d1 * 10 + d2) / 10) with d1 by (Z.div_mod_to_equations; lia).
  replace ((d1 * 10 + d2) mod 10) with d2 by (Z.div_mod_to_equations; lia).
  reflexivity.
Qed.

(* ================================================================== *)
(** * More properties of the accessors *)

Lemma Parse_ymd_empty : snd (time.Parse time.layout_ymd "") <> None.
Proof. vm_compute. discriminate. Qed.

(** The dates the loop can parse are the well-formed ones. *)
Lemma dates_parse_iff_well_formed (o : Officership) :
  dates_parse o <-> well_formed_dates o.
Proof.
  unfold dates_parse, well_formed_dates. split.
  - intros H.
    destruct (FromDateRaw o) as [|c x] eqn:EF.
    + destruct (TillDateRaw o) as [|c' x'] eqn:ET; [left; split; reflexivity|].
      exfalso. apply Parse_ymd_empty. apply H. right. discriminate.
    + right.
      assert (P : snd (time.Parse time.layout_ymd (String c x)) = None)
        by (apply H; left; discriminate).
      destruct (time.Parse time.layout_ymd (String c x)) as [t e] eqn:Q.
      cbn [snd] in P. subst e.
      destruct (Parse_ymd_inv _ _ Q) as (Ev & H0 & N0).
      exists t. repeat split; try assumption; try (apply (Parse_valid _ _ _ Q)).
  - intros [[EF ET]|(t & V & H0 & N0 & EF)] [C|C]; try contradiction.
    + rewrite EF, (Parse_text_ymd t V H0 N0). reflexivity.
    + rewrite EF, (Parse_text_ymd t V H0 N0). reflexivity.
Qed.

Section ClientCoverage.

Context {transport_error json_error Remote ShowMeta : Type}.
Variable roundTrip :
  Remote -> string -> list string ->
  (option RawMessage * option transport_error) * Remote.
Context {dec_string : Unmarshaler json_error string}.
Context {dec_Track : Unmarshaler json_error Track}.
Context {dec_Album : Unmarshaler json_error Album}.
Context {dec_Photo : Unmarshaler json_error Photo}.
Context {dec_Officerships : Unmarshaler json_error (list Officership)}.
Context {dec_ShowMetas : Unmarshaler json_error (list ShowMeta)}.

Ltac run_transport :=
  unfold apiRequest;
  match goal with
  | |- context [roundTrip ?r ?e ?m] =>
      destruct (roundTrip r e m) as [[payload terr] rem'] eqn:RT
  end;
  cbn [fst snd option_map] in *.

Ltac transport_gave H := run_transport; inversion H; subst; clear H.

(** X8.  A transport error stops every accessor: each returns the zero
    value of its result type (nil, the empty string, the empty photo, no
    entries) together with the transport's error, whatever payload came
    with it, and decodes nothing. *)
Theorem accessors_transport_error (id : Z) (s : Session) (e : transport_error) :
  let answers path payload := fst (roundTrip (remote s) path []) = (payload, Some e) in
  (forall p, answers (Sprintf_d "/track/" id "") p ->
     fst (GetTrack roundTrip id s) = Returns (None, Some (TransportError e)))
  /\ (forall t p, answers (Sprintf_d "/track/" (ID t) "/album") p ->
        fst (GetAlbum roundTrip t s) = Returns (None, Some (TransportError e)))
  /\ (forall p, answers (Sprintf_d "/track/" id "/title") p ->
        fst (GetTrackTitle roundTrip id s) = Returns (""%string, Some (TransportError e)))
  /\ (forall p, answers (Sprintf_d "/track/" id "/album") p ->
        fst (GetTrackAlbum roundTrip id s) = Returns (None, Some (TransportError e)))
  /\ (forall p, answers (Sprintf_d "/user/" id "/bio/") p ->
        fst (GetUserBio roundTrip id s) = Returns (""%string, Some (TransportError e)))
  /\ (forall p, answers (Sprintf_d "/user/" id "/name/") p ->
        fst (GetUserName roundTrip id s) = Returns (""%string, Some (TransportError e)))
  /\ (forall p, answers (Sprintf_d "/user/" id "/profilephoto/") p ->
        fst (GetUserProfilePhoto roundTrip id s)
        = Returns (Photo_zero, Some (TransportError e)))
  /\ (forall p, answers (Sprintf_d "/user/" id "/officerships/") p ->
        fst (GetUserOfficerships roundTrip id s) = Returns ([], Some (TransportError e)))
  /\ (forall p, answers (Sprintf_d "/user/" id "/shows/") p ->
        fst (GetUserShowCredits roundTrip id s) = Returns ([], Some (TransportError e))).
Proof.
  intros answers. subst answers. cbv beta.
  repeat split; [intros p H | intros t p H | intros p H ..].
  - unfold GetTrack. transport_gave H. reflexivity.
  - unfold GetAlbum, GetTrackAlbum. transport_gave H. reflexivity.
  - unfold GetTrackTitle. transport_gave H. reflexivity.
  - unfold GetTrackAlbum. transport_gave H. reflexivity.
  - unfold GetUserBio. transport_gave H. reflexivity.
  - unfold GetUserName. transport_gave H. reflexivity.
  - unfold GetUserProfilePhoto. transport_gave H. reflexivity.
  - unfold GetUserOfficerships. transport_gave H. reflexivity.
  - unfold GetUserShowCredits. transport_gave H. reflexivity.
Qed.

(** X9.  Five accessors read the payload without testing it for nil
    ([GetUserBio] and [GetUserProfilePhoto] test it): when the transport
    gives no payload and no error, [GetTrack], [GetTrackTitle],
    [GetTrackAlbum] (and [Track.GetAlbum] through it),
    [GetUserOfficerships] and [GetUserShowCredits] panic with a nil
    dereference and return nothing. *)
Theorem unguarded_accessors_panic_on_nil (id : Z) (s : Session) :
  let silent path := fst (roundTrip (remote s) path []) = (None, None) in
  (silent (Sprintf_d "/track/" id "") ->
     fst (GetTrack (json_error := json_error) roundTrip id s) = Panics nil_dereference)
  /\ (silent (Sprintf_d "/track/" id "/title") ->
        fst (GetTrackTitle (json_error := json_error) roundTrip id s) = Panics nil_dereference)
  /\ (silent (Sprintf_d "/track/" id "/album") ->
        fst (GetTrackAlbum (json_error := json_error) roundTrip id s) = Panics nil_dereference)
  /\ (forall t, silent (Sprintf_d "/track/" (ID t) "/album") ->
        fst (GetAlbum (json_error := json_error) roundTrip t s) = Panics nil_dereference)
  /\ (silent (Sprintf_d "/user/" id "/officerships/") ->
        fst (GetUserOfficerships (json_error := json_error) roundTrip id s)
        = Panics nil_dereference)
  /\ (silent (Sprintf_d "/user/" id "/shows/") ->
        fst (GetUserShowCredits (json_error := json_error) (ShowMeta := ShowMeta)
                                roundTrip id s)
        = Panics nil_dereference).
Proof.
  intros silent. subst silent. cbv beta.
  repeat split; [intros H | intros H | intros H | intros t H | intros H ..].
  - unfold GetTrack. transport_gave H. reflexivity.
  - unfold GetTrackTitle. transport_gave H. reflexivity.
  - unfold GetTrackAlbum. transport_gave H. reflexivity.
  - unfold GetAlbum, GetTrackAlbum. transport_gave H. reflexivity.
  - unfold GetUserOfficerships. transport_gave H. reflexivity.
  - unfold GetUserShowCredits. transport_gave H. reflexivity.
Qed.

(** X10.  Each accessor of user.go calls the transport exactly once, for
    its own endpoint, on every path (transport error, nil payload, decode
    error, parse error, success): the session after the call is the one
    after that single request. *)
Theorem user_accessors_one_request (id : Z) (s : Session) :
  let after path :=
    {| remote := snd (roundTrip (remote s) path []); requests := requests s ++ [path] |} in
  snd (GetUserBio roundTrip id s) = after (Sprintf_d "/user/" id "/bio/")
  /\ snd (GetUserName roundTrip id s) = after (Sprintf_d "/user/" id "/name/")
  /\ snd (GetUserProfilePhoto roundTrip id s) = after (Sprintf_d "/user/" id "/profilephoto/")
  /\ snd (GetUserOfficerships roundTrip id s) = after (Sprintf_d "/user/" id "/officerships/")
  /\ snd (GetUserShowCredits roundTrip id s) = after (Sprintf_d "/user/" id "/shows/").
Proof.
  intros after. subst after. cbv beta.
  repeat split.
  - unfold GetUserBio. run_transport.
    destruct terr; [reflexivity|]. destruct payload; reflexivity.
  - unfold GetUserName. run_transport.
    destruct terr; [reflexivity|]. destruct payload; reflexivity.
  - unfold GetUserProfilePhoto. run_transport.
    destruct terr; [reflexivity|]. destruct payload as [d|]; [|reflexivity].
    destruct (json_Unmarshal d Photo_zero) as [p [e|]]; [reflexivity|].
    destruct (time_Parse _ _); reflexivity.
  - unfold GetUserOfficerships. run_transport.
    destruct terr; [reflexivity|]. destruct payload as [d|]; [|reflexivity].
    destruct (json_Unmarshal d []) as [p [e|]]; reflexivity.
  - unfold GetUserShowCredits. run_transport.
    destruct terr; [reflexivity|]. destruct payload; reflexivity.
Qed.

(** X11.  What the decoder gives is what the caller gets.  [GetUserBio],
    [GetUserName] and [GetUserShowCredits] return the decoder's value and
    error as they are, so a partly decoded value comes back with the
    error; [GetUserProfilePhoto] and [GetUserOfficerships] return on a
    decode error before any date is parsed, with the value decoded so
    far. *)
Theorem user_accessors_decode_result (id : Z) (s : Session) (data : RawMessage) :
  let serves path := fst (roundTrip (remote s) path []) = (Some data, None) in
  (serves (Sprintf_d "/user/" id "/bio/") ->
     fst (GetUserBio roundTrip id s)
     = Returns (fst (Unmarshal data ""%string),
                option_map UnmarshalError (snd (Unmarshal data ""%string))))
  /\ (serves (Sprintf_d "/user/" id "/name/") ->
        fst (GetUserName roundTrip id s)
        = Returns (fst (Unmarshal data ""%string),
                   option_map UnmarshalError (snd (Unmarshal data ""%string))))
  /\ (serves (Sprintf_d "/user/" id "/shows/") ->
        fst (GetUserShowCredits roundTrip id s)
        = Returns (fst (Unmarshal data (@nil ShowMeta)),
                   option_map UnmarshalError (snd (Unmarshal data (@nil ShowMeta)))))
  /\ (forall p e,
        serves (Sprintf_d "/user/" id "/profilephoto/") ->
        Unmarshal data Photo_zero = (p, Some e) ->
        fst (GetUserProfilePhoto roundTrip id s) = Returns (p, Some (UnmarshalError e)))
  /\ (forall l e,
        serves (Sprintf_d "/user/" id "/officerships/") ->
        Unmarshal data [] = (l, Some e) ->
        fst (GetUserOfficerships roundTrip id s) = Returns (l, Some (UnmarshalError e))).
Proof.
  intros serves. subst serves. cbv beta.
  repeat split.
  - intros H. unfold GetUserBio. transport_gave H.
    unfold json_Unmarshal. destruct (Unmarshal data ""%string); reflexivity.
  - intros H. unfold GetUserName. transport_gave H.
    unfold json_Unmarshal. destruct (Unmarshal data ""%string); reflexivity.
  - intros H. unfold GetUserShowCredits. transport_gave H.
    unfold json_Unmarshal. destruct (Unmarshal data []); reflexivity.
  - intros p e H U. unfold GetUserProfilePhoto. transport_gave H.
    unfold json_Unmarshal. rewrite U. reflexivity.
  - intros l e H U. unfold GetUserOfficerships. transport_gave H.
    unfold json_Unmarshal. rewrite U. reflexivity.
Qed.

(** *** The loop of [GetUserOfficerships], continued *)

Local Abbreviation norm := (@normalise transport_error json_error).
Local Abbreviation norm_all := (@normalise_all transport_error json_error).

Lemma normalise_succeeds_iff (v : Officership) :
  snd (norm v) = None <-> dates_parse v.
Proof.
  unfold normalise, dates_parse, time_Parse.
  destruct (is_empty (FromDateRaw v)) eqn:EF;
    [pose proof (proj1 (is_empty_true _) EF) as EF'
    | pose proof (proj1 (is_empty_false _) EF) as EF'];
    (destruct (is_empty (TillDateRaw v)) eqn:ET;
     [pose proof (proj1 (is_empty_true _) ET) as ET'
     | pose proof (proj1 (is_empty_false _) ET) as ET']);
    destruct (time.Parse time.layout_ymd (FromDateRaw v)) as [t [pe|]];
    cbn [negb option_map set_FromDate TillDateRaw]; try rewrite ET;
    cbn [negb option_map fst snd];
    split; intros H; try reflexivity; try discriminate;
    try (intros [C|C]; contradiction);
    try (exfalso; assert (D : Some pe = None) by (apply H; auto); discriminate D).
Qed.

Lemma normalise_all_succeeds_iff (os : list Officership) :
  snd (norm_all os) = None <-> Forall dates_parse os.
Proof.
  induction os as [|v os IH]; cbn [normalise_all].
  - split; [constructor | reflexivity].
  - pose proof (normalise_succeeds_iff v) as N.
    destruct (norm v) as [v' [e|]]; cbn [snd] in *.
    + split; [discriminate|]. intros F. inversion F; subst.
      apply N. assumption.
    + destruct (norm_all os) as [rest err]. cbn [snd] in *. split.
      * intros H. constructor; [apply N; reflexivity | apply IH; exact H].
      * intros F. inversion F; subst. apply IH. assumption.
Qed.

Lemma normalise_all_same_raw (os : list Officership) :
  Forall2 same_raw os (fst (norm_all os)).
Proof.
  induction os as [|v os IH]; cbn [normalise_all]; [constructor|].
  pose proof (normalise_same_raw (transport_error := transport_error)
                                 (json_error := json_error) v) as R.
  destruct (norm v) as [v' [e|]]; cbn [fst] in *.
  - constructor; [exact R|]. clear. induction os; constructor; [repeat split | assumption].
  - destruct (norm_all os) as [rest err]. cbn [fst] in *. constructor; assumption.
Qed.

(** X16.  Once the payload has decoded, [GetUserOfficerships] returns as
    many entries as were decoded, in the same order and with the same
    wire fields, whether or not a date fails to parse: the loop changes
    [FromDate] and [TillDate] only. *)
Theorem GetUserOfficerships_keeps_wire_fields
        (id : Z) (s : Session) (data : RawMessage) (decoded : list Officership) :
  fst (roundTrip (remote s) (Sprintf_d "/user/" id "/officerships/") []) = (Some data, None) ->
  Unmarshal data [] = (decoded, @None json_error) ->
  exists result err,
    fst (GetUserOfficerships roundTrip id s) = Returns (result, err)
    /\ List.length result = List.length decoded
    /\ Forall2 same_raw decoded result.
Proof.
  intros H U. rewrite (GetUserOfficerships_decoded roundTrip _ _ _ _ H U).
  pose proof (normalise_all_same_raw decoded) as R.
  destruct (norm_all decoded) as [res err]. cbn [fst] in R.
  exists res, err. split; [reflexivity|]. split; [|exact R].
  symmetry. eapply Forall2_length. exact R.
Qed.

(** X17.  In the result of a successful call, every entry with both raw
    dates has its till date equal to its from date. *)
Theorem GetUserOfficerships_till_equals_from
        (id : Z) (s : Session) (data : RawMessage) (decoded result : list Officership) :
  fst (roundTrip (remote s) (Sprintf_d "/user/" id "/officerships/") []) = (Some data, None) ->
  Unmarshal data [] = (decoded, @None json_error) ->
  fst (GetUserOfficerships roundTrip id s) = Returns (result, None) ->
  Forall (fun o => FromDateRaw o <> ""%string -> TillDateRaw o <> ""%string ->
                   TillDate o = FromDate o) result.
Proof.
  intros H U R. rewrite (GetUserOfficerships_decoded roundTrip _ _ _ _ H U) in R.
  inversion R as [R']. destruct (normalise_all_success _ _ R') as [-> HF].
  clear R R' U H. induction decoded as [|o os IH]; cbn [map]; constructor.
  - inversion HF as [|? ? Ho _]; subst.
    destruct (normalise_same_raw (transport_error := transport_error)
                                 (json_error := json_error) o)
      as (_ & _ & _ & EF & ET).
    destruct (normalise_ok o Ho) as (PF & _ & PT & _).
    rewrite EF, ET. intros NF NT.
    specialize (PF NF). specialize (PT NT). rewrite PF in PT. inversion PT. reflexivity.
  - apply IH. inversion HF; assumption.
Qed.

(** X18.  If any decoded entry has a till date and no from date, the call
    fails with a time-parse error, wherever the entry stands in the
    list. *)
Theorem GetUserOfficerships_till_needs_from
        (id : Z) (s : Session) (data : RawMessage) (decoded : list Officership)
        (o : Officership) :
  fst (roundTrip (remote s) (Sprintf_d "/user/" id "/officerships/") []) = (Some data, None) ->
  Unmarshal data [] = (decoded, @None json_error) ->
  In o decoded -> FromDateRaw o = ""%string -> TillDateRaw o <> ""%string ->
  exists result pe,
    fst (GetUserOfficerships roundTrip id s) = Returns (result, Some (TimeParseError pe)).
Proof.
  intros H U Hin HF HT. rewrite (GetUserOfficerships_decoded roundTrip _ _ _ _ H U).
  destruct (norm_all decoded) as [res [e|]] eqn:N.
  - destruct (normalise_all_failure _ _ _ N) as (pre & v & post & _ & _ & Hv & _).
    destruct (normalise_failure v e Hv) as [(pe & -> & _) _].
    exists res, pe. reflexivity.
  - exfalso.
    assert (F : Forall dates_parse decoded)
      by (apply normalise_all_succeeds_iff; rewrite N; reflexivity).
    rewrite Forall_forall in F. specialize (F o Hin).
    unfold dates_parse in F. rewrite HF in F.
    apply Parse_ymd_empty. apply F. right. exact HT.
Qed.

(** *** The dates of a photo and of officerships *)

(** After a successful decode the photo comes back with the parse of its
    raw date. *)
Lemma GetUserProfilePhoto_parses (id : Z) (s : Session) (data : RawMessage) (p : Photo) :
  fst (roundTrip (remote s) (Sprintf_d "/user/" id "/profilephoto/") []) = (Some data, None) ->
  Unmarshal data Photo_zero = (p, @None json_error) ->
  fst (GetUserProfilePhoto roundTrip id s)
  = Returns (set_DateAdded p (fst (time.Parse time.layout_dmy_hm (DateAddedRaw p))),
             option_map TimeParseError
                        (snd (time.Parse time.layout_dmy_hm (DateAddedRaw p)))).
Proof.
  intros H U. unfold GetUserProfilePhoto, apiRequest.
  destruct (roundTrip (remote s) (Sprintf_d "/user/" id "/profilephoto/") [])
    as [[payload terr] rem'].
  cbn [fst snd option_map] in *. inversion H; subst.
  unfold json_Unmarshal, time_Parse. rewrite U. cbn [option_map].
  destruct (time.Parse time.layout_dmy_hm (DateAddedRaw p)); reflexivity.
Qed.

(** X12.  When the raw date of a decoded photo does not parse, the photo
    is still returned, with its wire fields and [DateAdded] at the zero
    time, together with the parse error. *)
Theorem GetUserProfilePhoto_parse_failure
        (id : Z) (s : Session) (data : RawMessage) (p : Photo) (pe : time.ParseError) :
  fst (roundTrip (remote s) (Sprintf_d "/user/" id "/profilephoto/") []) = (Some data, None) ->
  Unmarshal data Photo_zero = (p, @None json_error) ->
  snd (time.Parse time.layout_dmy_hm (DateAddedRaw p)) = Some pe ->
  fst (GetUserProfilePhoto roundTrip id s)
  = Returns (set_DateAdded p time.zero, Some (TimeParseError pe)).
Proof.
  intros H U P. rewrite (GetUserProfilePhoto_parses _ _ _ _ H U).
  rewrite (Parse_error_zero _ _ _ P), P. reflexivity.
Qed.

(** X13.  A photo that [GetUserProfilePhoto] returns without an error has
    a [DateAdded] that is a calendar date and a time of day (month 1-12,
    a day of that month in that year, hour below 24, minute below 60),
    and differs from the decoded photo in [DateAdded] only. *)
Theorem GetUserProfilePhoto_date_valid
        (id : Z) (s : Session) (data : RawMessage) (p photo : Photo) :
  fst (roundTrip (remote s) (Sprintf_d "/user/" id "/profilephoto/") []) = (Some data, None) ->
  Unmarshal data Photo_zero = (p, @None json_error) ->
  fst (GetUserProfilePhoto roundTrip id s) = Returns (photo, None) ->
  valid_date (Photo_DateAdded photo)
  /\ photo = set_DateAdded p (Photo_DateAdded photo).
Proof.
  intros H U R. rewrite (GetUserProfilePhoto_parses _ _ _ _ H U) in R.
  destruct (time.Parse time.layout_dmy_hm (DateAddedRaw p)) as [t [e|]] eqn:P;
    cbn [fst snd option_map] in R; inversion R; subst.
  split; [|reflexivity]. cbn [set_DateAdded Photo_DateAdded].
  exact (Parse_valid _ _ _ P).
Qed.

(** X14.  Every valid date and time, written as day/month/year
    hour:minute with two-digit fields and a four-digit year, is accepted:
    the call returns the decoded photo with [DateAdded] set to exactly
    that date and time, and no error. *)
Theorem GetUserProfilePhoto_accepts_valid
        (id : Z) (s : Session) (data : RawMessage) (p : Photo) (t : time.Time) :
  fst (roundTrip (remote s) (Sprintf_d "/user/" id "/profilephoto/") []) = (Some data, None) ->
  Unmarshal data Photo_zero = (p, @None json_error) ->
  valid_date t -> DateAddedRaw p = text_dmy_hm t ->
  fst (GetUserProfilePhoto roundTrip id s) = Returns (set_DateAdded p t, None).
Proof.
  intros H U V E. rewrite (GetUserProfilePhoto_parses _ _ _ _ H U).
  rewrite E, (Parse_text_dmy_hm t V). reflexivity.
Qed.

(** X19.  Once the payload has decoded, [GetUserOfficerships] succeeds
    exactly when every entry either has both raw dates empty or has a raw
    from date that is a valid date written as four-digit year, two-digit
    month and two-digit day with dashes.  The raw till date is never
    looked at beyond its being empty or not. *)
Theorem GetUserOfficerships_accepts_exactly
        (id : Z) (s : Session) (data : RawMessage) (decoded : list Officership) :
  fst (roundTrip (remote s) (Sprintf_d "/user/" id "/officerships/") []) = (Some data, None) ->
  Unmarshal data [] = (decoded, @None json_error) ->
  (exists result, fst (GetUserOfficerships roundTrip id s) = Returns (result, None))
  <-> Forall well_formed_dates decoded.
Proof.
  intros H U. rewrite (GetUserOfficerships_decoded roundTrip _ _ _ _ H U).
  assert (W : Forall well_formed_dates decoded <-> snd (norm_all decoded) = None).
  { rewrite normalise_all_succeeds_iff. split; intros F;
      (eapply Forall_impl; [|exact F]); intros o; apply dates_parse_iff_well_formed. }
  rewrite W. destruct (norm_all decoded) as [res err]. cbn [snd]. split.
  - intros [result R]. inversion R. reflexivity.
  - intros ->. exists res. reflexivity.
Qed.

(** X20.  In the result of a successful call, every entry with a raw from
    date has a [FromDate] that is a calendar date at midnight, and
    writing that date as year-month-day gives the raw from date back. *)
Theorem GetUserOfficerships_from_date_round_trip
        (id : Z) (s : Session) (data : RawMessage) (decoded result : list Officership) :
  fst (roundTrip (remote s) (Sprintf_d "/user/" id "/officerships/") []) = (Some data, None) ->
  Unmarshal data [] = (decoded, @None json_error) ->
  fst (GetUserOfficerships roundTrip id s) = Returns (result, None) ->
  Forall (fun o => FromDateRaw o <> ""%string ->
                   valid_date (FromDate o)
                   /\ time.hour (FromDate o) = 0 /\ time.minute (FromDate o) = 0
                   /\ FromDateRaw o = text_ymd (FromDate o)) result.
Proof.
  intros H U R. rewrite (GetUserOfficerships_decoded roundTrip _ _ _ _ H U) in R.
  inversion R as [R']. destruct (normalise_all_success _ _ R') as [-> HF].
  clear R R' U H. induction decoded as [|o os IH]; cbn [map]; constructor.
  - inversion HF as [|? ? Ho _]; subst.
    destruct (normalise_same_raw (transport_error := transport_error)
                                 (json_error := json_error) o)
      as (_ & _ & _ & EF & _).
    destruct (normalise_ok o Ho) as (PF & _).
    rewrite EF. intros NF. specialize (PF NF).
    destruct (Parse_ymd_inv _ _ PF) as (Ev & H0 & N0).
    split; [exact (Parse_valid _ _ _ PF)|]. repeat split; assumption.
  - apply IH. inversion HF; assumption.
Qed.

End ClientCoverage.

(* ================================================================== *)
(** * The properties at concrete sessions *)

(** C2 at a session whose transport answers the bio request with a nil
    payload, and at one that answers with the text of the empty string. *)
Lemma GetUserBio_no_bio_set_witness :
  (exists bio,
      fst (GetUserBio (dec_string := table_decoder []) (bio_transport (None, None)) 7 session0)
      = Returns (bio, Some (errors_New "No bio set")))
  /\ fst (GetUserBio (dec_string := table_decoder [(json_empty_string, ""%string)])
                     (bio_transport (Some json_empty_string, None)) 7 session0)
     = Returns (""%string, None).
Proof.
  split.
  - apply (proj1 (GetUserBio_no_bio_set (dec_string := table_decoder [])
                    (bio_transport (None, None)) 7 session0)).
    reflexivity.
  - apply (proj2 (GetUserBio_no_bio_set
                    (dec_string := table_decoder [(json_empty_string, ""%string)])
                    (bio_transport (Some json_empty_string, None)) 7 session0));
      reflexivity.
Defined.

(** C5 at a session whose transport answers the name request with a nil
    payload and no error. *)
Lemma GetUserName_nil_payload_panics_witness :
  fst (canned [("/user/7/name/"%string, (None, None))] tt "/user/7/name/"%string [])
  = (None, None)
  /\ fst (GetUserName (json_error := string) (dec_string := table_decoder [])
                      (canned [("/user/7/name/"%string, (None, None))]) 7 session0)
     = Panics nil_dereference.
Proof.
  split; [reflexivity|].
  apply (GetUserName_nil_payload_panics (dec_string := table_decoder [])
           (canned [("/user/7/name/"%string, (None, None))]) 7 session0).
  reflexivity.
Defined.

(** C6 at a session serving a photo added on ["15/06/2021 13:45"]. *)
Lemma GetUserProfilePhoto_spec_witness :
  exists photo,
    fst (GetUserProfilePhoto (dec_Photo := table_decoder [("photo-12"%string, photo_on_wire)])
           (canned [("/user/7/profilephoto/"%string, (Some "photo-12"%string, None))])
           7 session0)
    = Returns (photo, None)
    /\ Photo_DateAdded photo
       = {| time.year := 2021; time.month := 6; time.day := 15;
            time.hour := 13; time.minute := 45 |}.
Proof.
  destruct (proj2 (GetUserProfilePhoto_spec
                     (dec_Photo := table_decoder [("photo-12"%string, photo_on_wire)])
                     (canned [("/user/7/profilephoto/"%string, (Some "photo-12"%string, None))])
                     7 session0)
                  "photo-12"%string photo_on_wire eq_refl eq_refl)
    as (photo & err & R & _ & _ & _ & D).
  destruct (D eq_refl) as [Dt De]. subst err.
  exists photo. split; [exact R | exact Dt].
Defined.

(** C1 at a session serving one officership from 2020-01-01 till
    2021-06-30. *)
Lemma GetUserOfficerships_till_date_reads_from_date_witness :
  fst (GetUserOfficerships
         (dec_Officerships :=
            table_decoder [("officerships-7"%string, [officer "2020-01-01" "2021-06-30"])])
         officerships_transport 7 session0)
  = Returns
      ([{| OfficerId := 3; OfficerName := "Station Manager"; TeamId := 1;
           FromDateRaw := "2020-01-01";
           FromDate := {| time.year := 2020; time.month := 1; time.day := 1;
                          time.hour := 0; time.minute := 0 |};
           TillDateRaw := "2021-06-30";
           TillDate := {| time.year := 2020; time.month := 1; time.day := 1;
                          time.hour := 0; time.minute := 0 |} |}], None).
Proof.
  apply (GetUserOfficerships_till_date_reads_from_date
           (dec_Officerships :=
              table_decoder [("officerships-7"%string, [officer "2020-01-01" "2021-06-30"])])
           officerships_transport 7 session0 "officerships-7"%string
           (officer "2020-01-01" "2021-06-30") eq_refl eq_refl eq_refl eq_refl).
Defined.

(** C10, as stated, fails: when the payload carries [FromDate] and
    [TillDate] keys the decoder fills the derived dates, and after a
    parse failure on the first entry the failing entry still has the
    till date it was decoded with and the later entry the from date it
    was decoded with; neither is the zero time. *)
Lemma GetUserOfficerships_failing_entries_keep_decoded_dates :
  exists pe,
    fst (GetUserOfficerships
           (dec_Officerships := table_decoder [("officerships-7"%string, dated_officerships)])
           officerships_transport 7 session0)
    = Returns (dated_officerships, Some (TimeParseError pe))
    /\ (exists failing, nth_error dated_officerships 0 = Some failing
                        /\ snd (time.Parse time.layout_ymd (FromDateRaw failing)) = Some pe
                        /\ TillDate failing <> time.zero)
    /\ (exists later, nth_error dated_officerships 1 = Some later
                      /\ FromDate later <> time.zero).
Proof.
  eexists. split; [vm_compute; reflexivity|]. split.
  - eexists. split; [reflexivity|]. split; [vm_compute; reflexivity | discriminate].
  - eexists. split; [reflexivity | discriminate].
Qed.

(** C10 at a session serving three officerships of which the second has
    an unparseable from date. *)
Lemma GetUserOfficerships_parse_failure_witness :
  exists result e,
    fst (GetUserOfficerships
           (dec_Officerships := table_decoder [("officerships-7"%string, three_officerships)])
           officerships_transport 7 session0)
    = Returns (result, Some e)
    /\ exists k failing pe,
         nth_error three_officerships k = Some failing
         /\ e = TimeParseError pe
         /\ snd (time.Parse time.layout_ymd (FromDateRaw failing)) = Some pe
         /\ List.length result = List.length three_officerships
         /\ (forall i o o',
               nth_error three_officerships i = Some o -> nth_error result i = Some o' ->
               same_raw o o'
               /\ ((i < k)%nat -> carries_parsed_dates o o')
               /\ (i = k -> failed_dates o o')
               /\ ((k < i)%nat -> o' = o)
               /\ ((k <= i)%nat -> dates_zero o -> dates_zero o')).
Proof.
  eexists. eexists. split; [vm_compute; reflexivity|].
  apply (GetUserOfficerships_parse_failure
           (dec_Officerships := table_decoder [("officerships-7"%string, three_officerships)])
           officerships_transport 7 session0 "officerships-7"%string three_officerships).
  - reflexivity.
  - reflexivity.
  - vm_compute. reflexivity.
Defined.

(** C7 at a track of length ["1:02:03"] and at one of length ["abc"]. *)
Lemma LengthUsec_spec_witness :
  LengthUsec (track_of_length "1:02:03") = (3723000000, None)
  /\ LengthUsec (track_of_length "abc") = (0, Some fmt.expected_integer).
Proof.
  split.
  - apply (proj2 (proj1 (LengthUsec_spec (track_of_length "1:02:03")) 3723
                        LengthSec_1_02_03)).
    lia.
  - apply (proj2 (LengthUsec_spec (track_of_length "abc")) 0 fmt.expected_integer).
    vm_compute. reflexivity.
Defined.


(** C9 at a session whose transport answers the request for track 42
    with a payload the decoder rejects. *)
Lemma track_accessors_one_request_witness :
  requests (snd (GetTrack (dec_Track := table_decoder [])
                   (canned [("/track/42"%string, (Some "{"%string, None))]) 42 session0))
  = ["/track/42"%string]
  /\ fst (GetTrack (dec_Track := table_decoder [])
            (canned [("/track/42"%string, (Some "{"%string, None))]) 42 session0)
     = Returns (None, Some (UnmarshalError "invalid character"%string)).
Proof.
  pose proof (track_accessors_one_request
                (dec_string := table_decoder []) (dec_Track := table_decoder [])
                (dec_Album := table_decoder [])
                (canned [("/track/42"%string, (Some "{"%string, None))]) 42 session0)
    as [[L _] [D _]].
  split.
  - rewrite L. reflexivity.
  - apply (D "{"%string Track_zero "invalid character"%string); reflexivity.
Defined.

(** The example of the specification: an officership from 2020-01-01 with
    no till date comes back with the from date parsed and the till date
    at its zero value. *)
Example GetUserOfficerships_open_ended :
  fst (GetUserOfficerships
         (dec_Officerships := table_decoder [("officerships-7"%string, [officer "2020-01-01" ""])])
         officerships_transport 7 session0)
  = Returns
      ([{| OfficerId := 3; OfficerName := "Station Manager"; TeamId := 1;
           FromDateRaw := "2020-01-01";
           FromDate := {| time.year := 2020; time.month := 1; time.day := 1;
                          time.hour := 0; time.minute := 0 |};
           TillDateRaw := "";
           TillDate := time.zero |}], @None (@error string string)).
Proof. vm_compute. reflexivity. Qed.

(** ** Lengths *)

(** X1 at the length ["12:34:56"]. *)
Lemma LengthSec_decimal_witness :
  LengthSec (track_of_length "12:34:56") = (45296, None).
Proof. apply (LengthSec_decimal 12 34 56); lia. Defined.


(** X3 at the lengths ["1:08:09"] and ["1:09:59"]. *)
Lemma LengthSec_minutes_08_09_witness :
  LengthSec (track_of_length "1:08:09") = (3608, None)
  /\ LengthSec (track_of_length "1:09:59") = (3609, None).
Proof.
  assert (F : field_text "1" 1) by (left; split; [lia | reflexivity]).
  split.
  - apply (proj1 (LengthSec_minutes_08_09 "1" "09" 1 F)).
  - apply (proj2 (LengthSec_minutes_08_09 "1" "59" 1 F)).
Defined.

(** X4 at an hours field of 2^64. *)
Lemma LengthSec_field_overflow_witness :
  LengthSec (track_of_length "18446744073709551616:00:00")
  = (0, Some (fmt.num_error {| strconv.Func := "ParseUint";
                               strconv.Num := bytes_of "18446744073709551616";
                               strconv.Why := strconv.ErrRange |})).
Proof. apply (LengthSec_field_overflow 18446744073709551616 "00:00"); lia. Defined.

(** X5 at a length of two colons and a space. *)
Lemma LengthSec_blank_witness :
  LengthSec (track_of_length ": :") = (0, Some fmt.io_EOF).
Proof.
  apply (LengthSec_blank (track_of_length ": :")).
  unfold blank. cbn.
  repeat (apply Forall_cons; [unfold is_separator; lia|]). apply Forall_nil.
Defined.

(** X7 at the length ["1:2:3"]. *)
Lemma LengthUsec_decimal_witness :
  LengthUsec (track_of_length "1:2:3") = (3723000000, None).
Proof.
  apply (proj2 (LengthUsec_decimal 1 2 3 ltac:(lia) ltac:(lia) ltac:(lia))). lia.
Defined.

(** ** Sessions *)

(** X8 at a transport that knows no endpoint: the photo accessor returns
    the empty photo and the transport's error. *)
Lemma accessors_transport_error_witness :
  fst (GetUserProfilePhoto (dec_Photo := table_decoder []) failing_transport 7 session0)
  = Returns (Photo_zero, Some (TransportError "404"%string))
  /\ fst (GetUserShowCredits (ShowMeta := string) (dec_ShowMetas := table_decoder [])
                             failing_transport 7 session0)
     = Returns ([], Some (TransportError "404"%string)).
Proof.
  pose proof (accessors_transport_error
                (ShowMeta := string)
                (dec_string := table_decoder []) (dec_Track := table_decoder [])
                (dec_Album := table_decoder []) (dec_Photo := table_decoder [])
                (dec_Officerships := table_decoder []) (dec_ShowMetas := table_decoder [])
                failing_transport 7 session0 "404"%string)
    as (_ & _ & _ & _ & _ & _ & P & _ & C).
  split; [apply (P None) | apply (C None)]; reflexivity.
Defined.

(** X9 at a transport that answers every request with no payload and no
    error. *)
Lemma unguarded_accessors_panic_on_nil_witness :
  fst (GetTrack (json_error := string) (dec_Track := table_decoder [])
                silent_transport 42 session0)
  = Panics nil_dereference
  /\ fst (GetUserOfficerships (json_error := string) (dec_Officerships := table_decoder [])
                              silent_transport 7 session0)
     = Panics nil_dereference.
Proof.
  pose proof (unguarded_accessors_panic_on_nil
                (ShowMeta := string)
                (dec_string := table_decoder []) (dec_Track := table_decoder [])
                (dec_Album := table_decoder [])
                (dec_Officerships := table_decoder []) (dec_ShowMetas := table_decoder [])
                silent_transport 42 session0)
    as (T & _).
  pose proof (unguarded_accessors_panic_on_nil
                (ShowMeta := string)
                (dec_string := table_decoder []) (dec_Track := table_decoder [])
                (dec_Album := table_decoder [])
                (dec_Officerships := table_decoder []) (dec_ShowMetas := table_decoder [])
                silent_transport 7 session0)
    as (_ & _ & _ & _ & O & _).
  split; [apply T | apply O]; reflexivity.
Defined.

(** X11 at a session whose transport answers the name request with a
    payload the decoder rejects. *)
Lemma user_accessors_decode_result_witness :
  fst (GetUserName (dec_string := table_decoder [])
                   (canned [("/user/7/name/"%string, (Some "{"%string, None))]) 7 session0)
  = Returns (""%string, Some (UnmarshalError "invalid character"%string)).
Proof.
  pose proof (user_accessors_decode_result
                (ShowMeta := string)
                (dec_string := table_decoder []) (dec_Photo := table_decoder [])
                (dec_Officerships := table_decoder []) (dec_ShowMetas := table_decoder [])
                (canned [("/user/7/name/"%string, (Some "{"%string, None))]) 7 session0
                "{"%string)
    as (_ & N & _).
  apply N. reflexivity.
Defined.

(** X12 at a session serving a photo added ["yesterday"]. *)
Lemma GetUserProfilePhoto_parse_failure_witness :
  exists pe,
    fst (GetUserProfilePhoto (dec_Photo := table_decoder [("photo"%string, photo_undated)])
                             profilephoto_transport 7 session0)
    = Returns (photo_undated, Some (TimeParseError pe)).
Proof.
  eexists.
  apply (GetUserProfilePhoto_parse_failure
           (dec_Photo := table_decoder [("photo"%string, photo_undated)])
           profilephoto_transport 7 session0 "photo"%string photo_undated).
  - reflexivity.
  - reflexivity.
  - vm_compute. reflexivity.
Defined.

(** X13 at a session serving a photo added on ["15/06/2021 13:45"]. *)
Lemma GetUserProfilePhoto_date_valid_witness :
  valid_date june_15.
Proof.
  apply (GetUserProfilePhoto_date_valid
           (dec_Photo := table_decoder [("photo"%string, photo_on_wire)])
           profilephoto_transport 7 session0 "photo"%string photo_on_wire
           (set_DateAdded photo_on_wire june_15) eq_refl eq_refl eq_refl).
Defined.

(** X14 at the same session. *)
Lemma GetUserProfilePhoto_accepts_valid_witness :
  fst (GetUserProfilePhoto (dec_Photo := table_decoder [("photo"%string, photo_on_wire)])
                           profilephoto_transport 7 session0)
  = Returns (set_DateAdded photo_on_wire june_15, None).
Proof.
  apply (GetUserProfilePhoto_accepts_valid
           (dec_Photo := table_decoder [("photo"%string, photo_on_wire)])
           profilephoto_transport 7 session0 "photo"%string photo_on_wire june_15).
  - reflexivity.
  - reflexivity.
  - unfold valid_date. cbn. lia.
  - reflexivity.
Defined.

(** X15 at a session serving one officership from 2020-01-01 with no till
    date. *)
Lemma GetUserOfficerships_success_witness :
  Forall2 (fun o o' => same_raw o o' /\ carries_parsed_dates o o')
          [officer "2020-01-01" ""]
          [set_FromDate (officer "2020-01-01" "") jan_1].
Proof.
  apply (GetUserOfficerships_success
           (dec_Officerships := table_decoder [("officerships-7"%string,
                                                [officer "2020-01-01" ""])])
           officerships_transport 7 session0 "officerships-7"%string
           [officer "2020-01-01" ""] [set_FromDate (officer "2020-01-01" "") jan_1]
           eq_refl eq_refl eq_refl).
Defined.

(** X16 at a session serving three officerships of which the second has
    an unparseable from date. *)
Lemma GetUserOfficerships_keeps_wire_fields_witness :
  exists result err,
    fst (GetUserOfficerships
           (dec_Officerships := table_decoder [("officerships-7"%string, three_officerships)])
           officerships_transport 7 session0)
    = Returns (result, err)
    /\ List.length result = List.length three_officerships
    /\ Forall2 same_raw three_officerships result.
Proof.
  apply (GetUserOfficerships_keeps_wire_fields
           (dec_Officerships := table_decoder [("officerships-7"%string, three_officerships)])
           officerships_transport 7 session0 "officerships-7"%string three_officerships
           eq_refl eq_refl).
Defined.

(** X17 at a session serving one officership from 2020-01-01 till
    2021-06-30. *)
Lemma GetUserOfficerships_till_equals_from_witness :
  Forall (fun o => FromDateRaw o <> ""%string -> TillDateRaw o <> ""%string ->
                   TillDate o = FromDate o)
         [set_TillDate (set_FromDate (officer "2020-01-01" "2021-06-30") jan_1) jan_1].
Proof.
  apply (GetUserOfficerships_till_equals_from
           (dec_Officerships := table_decoder [("officerships-7"%string,
                                                [officer "2020-01-01" "2021-06-30"])])
           officerships_transport 7 session0 "officerships-7"%string
           [officer "2020-01-01" "2021-06-30"] _ eq_refl eq_refl eq_refl).
Defined.

(** X18 at a session whose second officership has a till date and no from
    date. *)
Lemma GetUserOfficerships_till_needs_from_witness :
  exists result pe,
    fst (GetUserOfficerships
           (dec_Officerships := table_decoder [("officerships-7"%string,
                                                till_only_officerships)])
           officerships_transport 7 session0)
    = Returns (result, Some (TimeParseError pe)).
Proof.
  apply (GetUserOfficerships_till_needs_from
           (dec_Officerships := table_decoder [("officerships-7"%string,
                                                till_only_officerships)])
           officerships_transport 7 session0 "officerships-7"%string
           till_only_officerships (officer "" "2021-06-30") eq_refl eq_refl).
  - right. left. reflexivity.
  - reflexivity.
  - discriminate.
Defined.

(** X19 at a session serving one officership from 2020-01-01 till
    2021-06-30, which is accepted, and at one serving
    [three_officerships], which is not. *)
Lemma GetUserOfficerships_accepts_exactly_witness :
  Forall well_formed_dates [officer "2020-01-01" "2021-06-30"]
  /\ ~ Forall well_formed_dates three_officerships.
Proof.
  split.
  - apply (proj1 (GetUserOfficerships_accepts_exactly
                    (dec_Officerships := table_decoder [("officerships-7"%string,
                                                         [officer "2020-01-01" "2021-06-30"])])
                    officerships_transport 7 session0 "officerships-7"%string
                    [officer "2020-01-01" "2021-06-30"] eq_refl eq_refl)).
    eexists. reflexivity.
  - intros W.
    destruct (proj2 (GetUserOfficerships_accepts_exactly
                       (dec_Officerships := table_decoder [("officerships-7"%string,
                                                            three_officerships)])
                       officerships_transport 7 session0 "officerships-7"%string
                       three_officerships eq_refl eq_refl) W) as [result R].
    vm_compute in R. discriminate R.
Defined.

(** X20 at a session serving one officership from 2020-01-01 with no till
    date. *)
Lemma GetUserOfficerships_from_date_round_trip_witness :
  Forall (fun o => FromDateRaw o <> ""%string ->
                   valid_date (FromDate o)
                   /\ time.hour (FromDate o) = 0 /\ time.minute (FromDate o) = 0
                   /\ FromDateRaw o = text_ymd (FromDate o))
         [set_FromDate (officer "2020-01-01" "") jan_1].
Proof.
  apply (GetUserOfficerships_from_date_round_trip
           (dec_Officerships := table_decoder [("officerships-7"%string,
                                                [officer "2020-01-01" ""])])
           officerships_transport 7 session0 "officerships-7"%string
           [officer "2020-01-01" ""] _ eq_refl eq_refl eq_refl).
Defined.
